(** * Bender, episode 1: the grid state machine and the agent policy

    A shallow embedding of [main.go]: the [BenderSimulator] (direction
    priorities, obstacle recovery, priority inversion, breaker mode, loop
    detection), the two-dimensional [FSM] with its transition operation
    [Event], and the two callbacks that couple them.

    Conventions of the embedding.
    - A Go [int] is a [Z] in the 64-bit two's complement range; every
      addition and subtraction of the source goes through [int_wrap].
    - A Go [byte] is an [ascii]; a Go [string] is a [string] (a sequence of
      bytes); a slice is a [list], indexed by [slice_get] and [slice_set],
      which panic out of range as Go does.
    - [map[string]bool] is a [gmap string bool].
    - The receivers [*BenderSimulator] and [*FSM] are passed and returned
      explicitly.  The event handed to a callback is a pointer in Go, and it
      points back to the machine and to the arguments: the callback is a
      function from the event record to the updated event record, which
      carries the machine and the policy with it.
    - A run-time panic is the result [Panicked]. *)

From Stdlib Require Import ZArith Ascii DecimalString.
From Stdlib Require String.
From stdpp Require Import base list strings gmap.

Local Open Scope Z_scope.

(** ** Results of functions that may panic *)

Inductive outcome (T : Type) : Type :=
| Returned (t : T)
| Panicked (msg : string).
Arguments Returned {T} t.
Arguments Panicked {T} msg.

#[global] Instance outcome_ret : MRet outcome := fun _ t => Returned t.
#[global] Instance outcome_bind : MBind outcome := fun _ _ k m =>
  match m with
  | Returned t => k t
  | Panicked msg => Panicked msg
  end.

(** ** Machine integers *)

Definition int_min : Z := - 2 ^ 63.
Definition int_max : Z := 2 ^ 63 - 1.

Definition int_wrap (z : Z) : Z := (z + 2 ^ 63) `mod` 2 ^ 64 - 2 ^ 63.

Definition int_add (a b : Z) : Z := int_wrap (a + b).
Definition int_sub (a b : Z) : Z := int_wrap (a - b).

Definition is_int (z : Z) : Prop := int_min <= z <= int_max.

(** ** Slices *)

Definition len {T} (l : list T) : Z := Z.of_nat (length l).

Definition slice_get {T} (l : list T) (i : Z) : outcome T :=
  if bool_decide (0 <= i < len l) then
    match l !! Z.to_nat i with
    | Some v => Returned v
    | None => Panicked "index out of range"
    end
  else Panicked "index out of range".

Definition slice_set {T} (l : list T) (i : Z) (v : T) : outcome (list T) :=
  if bool_decide (0 <= i < len l) then Returned (<[Z.to_nat i := v]> l)
  else Panicked "index out of range".

(** ** Directions *)

Definition SOUTH : string := "SOUTH".
Definition NORTH : string := "NORTH".
Definition EAST : string := "EAST".
Definition WEST : string := "WEST".
Definition LOOP : string := "LOOP".

(** ** The simulator *)

Record BenderSimulator : Type := mkBender {
  done : bool;
  breaker : bool;
  boom : bool;
  resetDir : bool;
  invertPrio : bool;
  currDir : Z;
  priorities : list string;
  pathModifier : string;
  path : list string;
  cache : gmap string bool;
  loopCnt : Z;
  maxNumStates : Z
}.

Definition set_done (v : bool) (b : BenderSimulator) : BenderSimulator :=
  mkBender v (breaker b) (boom b) (resetDir b) (invertPrio b) (currDir b)
    (priorities b) (pathModifier b) (path b) (cache b) (loopCnt b) (maxNumStates b).
Definition set_breaker (v : bool) (b : BenderSimulator) : BenderSimulator :=
  mkBender (done b) v (boom b) (resetDir b) (invertPrio b) (currDir b)
    (priorities b) (pathModifier b) (path b) (cache b) (loopCnt b) (maxNumStates b).
Definition set_boom (v : bool) (b : BenderSimulator) : BenderSimulator :=
  mkBender (done b) (breaker b) v (resetDir b) (invertPrio b) (currDir b)
    (priorities b) (pathModifier b) (path b) (cache b) (loopCnt b) (maxNumStates b).
Definition set_resetDir (v : bool) (b : BenderSimulator) : BenderSimulator :=
  mkBender (done b) (breaker b) (boom b) v (invertPrio b) (currDir b)
    (priorities b) (pathModifier b) (path b) (cache b) (loopCnt b) (maxNumStates b).
Definition set_invertPrio (v : bool) (b : BenderSimulator) : BenderSimulator :=
  mkBender (done b) (breaker b) (boom b) (resetDir b) v (currDir b)
    (priorities b) (pathModifier b) (path b) (cache b) (loopCnt b) (maxNumStates b).
Definition set_currDir (v : Z) (b : BenderSimulator) : BenderSimulator :=
  mkBender (done b) (breaker b) (boom b) (resetDir b) (invertPrio b) v
    (priorities b) (pathModifier b) (path b) (cache b) (loopCnt b) (maxNumStates b).
Definition set_priorities (v : list string) (b : BenderSimulator) : BenderSimulator :=
  mkBender (done b) (breaker b) (boom b) (resetDir b) (invertPrio b) (currDir b)
    v (pathModifier b) (path b) (cache b) (loopCnt b) (maxNumStates b).
Definition set_pathModifier (v : string) (b : BenderSimulator) : BenderSimulator :=
  mkBender (done b) (breaker b) (boom b) (resetDir b) (invertPrio b) (currDir b)
    (priorities b) v (path b) (cache b) (loopCnt b) (maxNumStates b).
Definition set_path (v : list string) (b : BenderSimulator) : BenderSimulator :=
  mkBender (done b) (breaker b) (boom b) (resetDir b) (invertPrio b) (currDir b)
    (priorities b) (pathModifier b) v (cache b) (loopCnt b) (maxNumStates b).
Definition set_cache (v : gmap string bool) (b : BenderSimulator) : BenderSimulator :=
  mkBender (done b) (breaker b) (boom b) (resetDir b) (invertPrio b) (currDir b)
    (priorities b) (pathModifier b) (path b) v (loopCnt b) (maxNumStates b).
Definition set_loopCnt (v : Z) (b : BenderSimulator) : BenderSimulator :=
  mkBender (done b) (breaker b) (boom b) (resetDir b) (invertPrio b) (currDir b)
    (priorities b) (pathModifier b) (path b) (cache b) v (maxNumStates b).

(** [NewBenderSimulator]: the fields the composite literal leaves out take
    Go's zero values. *)
Definition NewBenderSimulator (stateNum : Z) : BenderSimulator :=
  {| done := false; breaker := false; boom := false; resetDir := false;
     invertPrio := false; currDir := 0;
     priorities := [SOUTH; EAST; NORTH; WEST];
     pathModifier := "";
     path := [];
     cache := ∅;
     loopCnt := 0;
     maxNumStates := stateNum |}.

Definition Done (b : BenderSimulator) : bool := done b.

Definition Loop (b : BenderSimulator) : bool :=
  if bool_decide (loopCnt b > maxNumStates b) then true else false.

Definition Direction (b : BenderSimulator) : outcome string :=
  if bool_decide (pathModifier b ≠ "") then Returned (pathModifier b)
  else slice_get (priorities b) (currDir b).

Definition ShowPath (b : BenderSimulator) : list string :=
  if Loop b then [LOOP] else path b.

Definition Breaker (b : BenderSimulator) : bool := breaker b.

Definition InvertBreaker (b : BenderSimulator) : BenderSimulator :=
  if breaker b then set_breaker false b else set_breaker true b.

Definition Reached (b : BenderSimulator) : BenderSimulator := set_done true b.

Definition InvertPriorities (b : BenderSimulator) : BenderSimulator :=
  if invertPrio b then set_invertPrio false b else set_invertPrio true b.

(** The loop of [turnoverPriorities]: [i] runs up from [0] and [j] down from
    [len - 1] while [i < len / 2], swapping the two elements.  The number of
    iterations is at most the length of the slice, which bounds the
    recursion. *)
Fixpoint turnover_loop (n : nat) (i j : Z) (ps : list string) : outcome (list string) :=
  if bool_decide (i < len ps `quot` 2) then
    match n with
    | O => Panicked "turnoverPriorities: iteration bound exceeded"
    | S n' =>
        pi ← slice_get ps i;
        pj ← slice_get ps j;
        ps1 ← slice_set ps i pj;
        ps2 ← slice_set ps1 j pi;
        turnover_loop n' (int_add i 1) (int_sub j 1) ps2
    end
  else Returned ps.

Definition turnoverPriorities (b : BenderSimulator) : outcome BenderSimulator :=
  ps ← turnover_loop (length (priorities b)) 0 (int_sub (len (priorities b)) 1) (priorities b);
  Returned (set_invertPrio false (set_priorities ps b)).

Definition Remember (dir state : string) (b : BenderSimulator) : BenderSimulator :=
  let b := set_path (path b ++ [dir]) b in
  match cache b !! state with
  | Some _ => set_loopCnt (int_add (loopCnt b) 1) b
  | None => set_loopCnt 0 (set_cache (<[state := true]> (cache b)) b)
  end.

Definition PathModifier (dir : string) (b : BenderSimulator) : BenderSimulator :=
  set_pathModifier dir b.

Definition NextDirection (b : BenderSimulator) : BenderSimulator :=
  if resetDir b then set_resetDir false (set_currDir 0 b)
  else if bool_decide (int_add (currDir b) 1 >= len (priorities b))
       then set_currDir 0 b
       else set_currDir (int_add (currDir b) 1) b.

Definition Boom (b : BenderSimulator) : outcome BenderSimulator :=
  let b := set_boom true b in
  let b := set_pathModifier "" b in
  if invertPrio b then
    b ← turnoverPriorities b;
    Returned (set_resetDir true b)
  else Returned b.

Definition Hurts (b : BenderSimulator) : bool := boom b.

Definition BackOnTrack (b : BenderSimulator) : BenderSimulator :=
  set_resetDir true (set_boom false b).

(** ** The grid state machine *)

Record Pair : Type := mkPair { x : Z; y : Z }.

#[global] Instance Pair_eq_dec : EqDecision Pair.
Proof. solve_decision. Defined.

(** The data of the machine.  The two callbacks of the Go struct are fixed
    at construction and are parameters of [FSM.Event]. *)
Record FSM : Type := mkFSM {
  states : list (list ascii);
  curr : Pair;
  teleports : list Pair
}.

(** The transition event.  [evFSM] is the machine the Go field [FSM] points
    to, [evEvent] is the Go field [Event], [Args] the context handed to the
    callbacks. *)
Record Event (A : Type) : Type := mkEvent {
  evFSM : FSM;
  evEvent : string;
  Dst : ascii;
  dstC : Pair;
  Cancelled : bool;
  Args : A
}.
Arguments mkEvent {A}.
Arguments evFSM {A}.
Arguments evEvent {A}.
Arguments Dst {A}.
Arguments dstC {A}.
Arguments Cancelled {A}.
Arguments Args {A}.

Definition Callback (A : Type) : Type := Event A → outcome (Event A).

Definition set_evFSM {A} (f : FSM) (e : Event A) : Event A :=
  mkEvent f (evEvent e) (Dst e) (dstC e) (Cancelled e) (Args e).
Definition set_Args {A} (a : A) (e : Event A) : Event A :=
  mkEvent (evFSM e) (evEvent e) (Dst e) (dstC e) (Cancelled e) a.

(** [%d] of an [int]. *)
Definition itoa (z : Z) : string := NilZero.string_of_int (Z.to_int z).

(** [%c] of a [byte]: the UTF-8 encoding of the code point of that value. *)
Definition fmt_c (c : ascii) : string :=
  let n := N_of_ascii c in
  if (n <? 128)%N then String c ""
  else String (ascii_of_N (192 + n / 64)) (String (ascii_of_N (128 + n `mod` 64)) "").

(** [%v] of a [Pair]. *)
Definition fmt_Pair (p : Pair) : string :=
  "{" +:+ itoa (x p) +:+ " " +:+ itoa (y p) +:+ "}".

(** The inner loop of [NewFSM] over one row.  [range] over a string yields
    the byte offset [j] of each code point; a code point equals ['@'] or
    ['T'] exactly when the byte at [j] does, and the bytes inside a longer
    encoding change neither [start] nor [tp], so the loop is written over
    the bytes. *)
Fixpoint scan_row (i j : Z) (s : string) (start : Pair) (tp : list Pair) : Pair * list Pair :=
  match s with
  | EmptyString => (start, tp)
  | String c s' =>
      if bool_decide (len tp = 2) && bool_decide (start ≠ mkPair 0 0) then (start, tp)
      else if bool_decide (c = "@"%char) then scan_row i (int_add j 1) s' (mkPair j i) tp
      else if bool_decide (c = "T"%char) then scan_row i (int_add j 1) s' start (tp ++ [mkPair j i])
      else scan_row i (int_add j 1) s' start tp
  end.

Fixpoint scan_plan (i : Z) (plan : list string) (sts : list (list ascii))
    (start : Pair) (tp : list Pair) : FSM :=
  match plan with
  | [] => mkFSM sts start tp
  | s :: plan' =>
      let '(start', tp') := scan_row i 0 s start tp in
      scan_plan (int_add i 1) plan' (sts ++ [String.list_ascii_of_string s]) start' tp'
  end.

Definition NewFSM (plan : list string) : FSM :=
  scan_plan 0 plan [] (mkPair 0 0) [].

Module FSM.

(** The [switch] of [Event]: an event that is none of the four directions
    leaves [dst] at its zero value. *)
Definition destination (f : FSM) (evt : string) : Pair :=
  if bool_decide (evt = SOUTH) then mkPair (x (curr f)) (int_add (y (curr f)) 1)
  else if bool_decide (evt = NORTH) then mkPair (x (curr f)) (int_sub (y (curr f)) 1)
  else if bool_decide (evt = EAST) then mkPair (int_add (x (curr f)) 1) (y (curr f))
  else if bool_decide (evt = WEST) then mkPair (int_sub (x (curr f)) 1) (y (curr f))
  else mkPair 0 0.

(** The bounds test of [Event], with the left-to-right evaluation of [||]. *)
Definition unknown_state (f : FSM) (dst : Pair) : outcome bool :=
  if bool_decide (x dst < 0) then Returned true
  else
    row0 ← slice_get (states f) 0;
    if bool_decide (x dst >= len row0) then Returned true
    else if bool_decide (y dst < 0) then Returned true
    else Returned (bool_decide (y dst >= len (states f))).

Definition SetState (p : Pair) (f : FSM) : FSM :=
  mkFSM (states f) p (teleports f).

(** [Event] returns its [error] (here the message, [None] for [nil])
    together with the machine and the context as the callbacks left
    them. *)
Definition Event {A} (beforeCB enterCB : Callback A) (f : FSM) (evt : string) (args : A)
    : outcome (option string * FSM * A) :=
  let dst := destination f evt in
  oob ← unknown_state f dst;
  if (oob : bool) then Returned (Some ("unknown state " +:+ fmt_Pair dst), f, args)
  else
    row ← slice_get (states f) (y dst);
    tile ← slice_get row (x dst);
    let e := mkEvent f evt tile dst false args in
    e ← beforeCB e;
    if Cancelled e then Returned (None, evFSM e, Args e)
    else
      let e := set_evFSM (SetState dst (evFSM e)) e in
      e ← enterCB e;
      Returned (None, evFSM e, Args e).

Definition TeleportDst (f : FSM) (ps : Pair) : outcome Pair :=
  if bool_decide (len (teleports f) ≠ 2) then Panicked "teleports badly setup"
  else
    t0 ← slice_get (teleports f) 0;
    if bool_decide (x t0 = x ps) && bool_decide (y t0 = y ps)
    then slice_get (teleports f) 1
    else slice_get (teleports f) 0.

End FSM.

Definition Cancel {A} (e : Event A) : Event A :=
  mkEvent (evFSM e) (evEvent e) (Dst e) (dstC e) true (Args e).

Definition ChangeDst {A} (dst : ascii) (e : Event A) : outcome (Event A) :=
  let f := evFSM e in
  row ← slice_get (states f) (y (dstC e));
  row' ← slice_set row (x (dstC e)) dst;
  sts ← slice_set (states f) (y (dstC e)) row';
  Returned (set_evFSM (mkFSM sts (curr f) (teleports f)) e).

Definition UniqueDst {A} (e : Event A) : string :=
  fmt_c (Dst e) +:+ itoa (x (dstC e)) +:+ itoa (y (dstC e)).

(** ** The callbacks of the policy *)

(** The obstacle branch shared by ['#'] and an unbreakable ['X']. *)
Definition hit_obstacle (e : Event BenderSimulator) : outcome (Event BenderSimulator) :=
  bender ← Boom (Args e);
  let bender := NextDirection bender in
  Returned (Cancel (set_Args bender e)).

Definition beforeCallback : Callback BenderSimulator := fun e =>
  let bender := Args e in
  if bool_decide (Dst e = "#"%char) then hit_obstacle e
  else if bool_decide (Dst e = "X"%char) then
    if Breaker bender then ChangeDst " "%char e
    else hit_obstacle e
  else Returned e.

Definition enterCallback : Callback BenderSimulator := fun e =>
  let bender := Args e in
  let bender := if Hurts bender then BackOnTrack bender else bender in
  e ← (if bool_decide (Dst e = "B"%char) then Returned (set_Args (InvertBreaker bender) e)
       else if bool_decide (Dst e = "S"%char) then Returned (set_Args (PathModifier SOUTH bender) e)
       else if bool_decide (Dst e = "N"%char) then Returned (set_Args (PathModifier NORTH bender) e)
       else if bool_decide (Dst e = "E"%char) then Returned (set_Args (PathModifier EAST bender) e)
       else if bool_decide (Dst e = "W"%char) then Returned (set_Args (PathModifier WEST bender) e)
       else if bool_decide (Dst e = "I"%char) then Returned (set_Args (InvertPriorities bender) e)
       else if bool_decide (Dst e = "T"%char) then
         p ← FSM.TeleportDst (evFSM e) (dstC e);
         Returned (set_Args bender (set_evFSM (FSM.SetState p (evFSM e)) e))
       else if bool_decide (Dst e = "$"%char) then Returned (set_Args (Reached bender) e)
       else Returned (set_Args bender e));
  Returned (set_Args (Remember (evEvent e) (UniqueDst e) (Args e)) e).

(** [calcNumStates]; [plan[0]] panics on an empty plan. *)
Definition calcNumStates (plan : list string) : outcome Z :=
  p0 ← slice_get plan 0;
  let l := Z.of_nat (String.length p0) in
  let w := len plan in
  Returned (int_wrap (int_sub w 2 * int_sub l 2)).

(** The loop of [main], for at most [n] transitions. *)
Fixpoint drive (n : nat) (m : FSM) (bender : BenderSimulator)
    : outcome (option string * FSM * BenderSimulator) :=
  match n with
  | O => Returned (None, m, bender)
  | S n' =>
      if negb (Done bender) && negb (Loop bender) then
        d ← Direction bender;
        '(err, m, bender) ← FSM.Event beforeCallback enterCallback m d bender;
        match err with
        | Some _ => Returned (err, m, bender)
        | None => drive n' m bender
        end
      else Returned (None, m, bender)
  end.

(** * Notions used in the statements *)

(** ** The geometry of the grid *)

(** The width is the length of the first row, as in the bounds test of
    [Event]. *)
Definition width (f : FSM) : Z :=
  match states f with
  | [] => 0
  | row0 :: _ => len row0
  end.

Definition height (f : FSM) : Z := len (states f).

(** A position is in bounds when it lies in the rectangle spanned by the
    first row and the number of rows. *)
Definition inBounds (f : FSM) (p : Pair) : Prop :=
  0 <= x p < width f ∧ 0 <= y p < height f.

(** Strictly inside: in bounds and not on the border. *)
Definition strictlyInside (f : FSM) (p : Pair) : Prop :=
  0 < x p < width f - 1 ∧ 0 < y p < height f - 1.

(** All rows have the length of the first. *)
Definition rectangular (f : FSM) : Prop :=
  Forall (fun row => len row = width f) (states f).

(** The tile at a position, if the grid has one there. *)
Definition tileAt (f : FSM) (p : Pair) : option ascii :=
  if bool_decide (0 <= x p ∧ 0 <= y p) then
    row ← states f !! Z.to_nat (y p);
    row !! Z.to_nat (x p)
  else None.

(** ** The callback protocol *)

(** What [Event] does once the destination [dst] has passed the bounds test
    and the event [e] is built: the before callback runs; if it cancels,
    [Event] returns [nil]; otherwise the position is set to [dst], the enter
    callback runs, and [Event] returns [nil]. *)
Definition callbacks {A} (beforeCB enterCB : Callback A) (dst : Pair) (e : Event A)
    : outcome (option string * FSM * A) :=
  e ← beforeCB e;
  if Cancelled e then Returned (None, evFSM e, Args e)
  else
    e ← enterCB (set_evFSM (FSM.SetState dst (evFSM e)) e);
    Returned (None, evFSM e, Args e).

(** Callbacks that would be noticed if they ran. *)
Definition panicCB {A} : Callback A := fun _ => Panicked "callback invoked".

(** A before callback that lets everything through and an enter callback
    that does nothing. *)
Definition idleCB {A} : Callback A := fun e => Returned e.

(** ** The policy *)

(** The effect of the [switch] of [enterCallback] on the simulator; the
    teleport tile acts on the machine only. *)
Definition tile_effect (tile : ascii) (b : BenderSimulator) : BenderSimulator :=
  if bool_decide (tile = "B"%char) then InvertBreaker b
  else if bool_decide (tile = "S"%char) then PathModifier SOUTH b
  else if bool_decide (tile = "N"%char) then PathModifier NORTH b
  else if bool_decide (tile = "E"%char) then PathModifier EAST b
  else if bool_decide (tile = "W"%char) then PathModifier WEST b
  else if bool_decide (tile = "I"%char) then InvertPriorities b
  else if bool_decide (tile = "$"%char) then Reached b
  else b.

(** Recording the state [state] once for each direction of [dirs]. *)
Definition RememberAll (dirs : list string) (state : string) (b : BenderSimulator)
    : BenderSimulator :=
  fold_left (fun b dir => Remember dir state b) dirs b.

(** * Mazes, machines and simulators used as instances *)

(** The plan of the test case "nominal". *)
Definition test_plan : list string :=
  ["#####"; "#$ X#"; "# @B#"; "#####"].

(** The plan of the test case "cancelled". *)
Definition cancelled_plan : list string :=
  ["#####"; "#$  #"; "#@ X#"; "#####"].

(** The plan of [main]. *)
Definition main_plan : list string :=
  ["########"; "#     $#"; "#      #"; "#      #"; "#  @   #"; "#      #"; "#      #"; "########"].

(** A simulator with an inversion pending. *)
Definition turned_over : BenderSimulator := InvertPriorities (NewBenderSimulator 9).

(** A simulator that has just left an obstacle behind. *)
Definition reset_pending : BenderSimulator := BackOnTrack (NewBenderSimulator 9).

(** A simulator with threshold [2] that has recorded one state once. *)
Definition seen_once : BenderSimulator := Remember SOUTH " 11" (NewBenderSimulator 2).

Definition two_teleports : FSM :=
  NewFSM ["#######"; "#@ T  #"; "#   T$#"; "#######"].

(** A machine on the upper wall of the frame. *)
Definition on_the_frame : FSM := FSM.SetState (mkPair 1 0) (NewFSM test_plan).

(** The machine of the test case "cancelled" after its first move, and the
    event [beforeCallback] leaves when the machine then runs into the
    obstacle to the east. *)
Definition before_the_obstacle : FSM :=
  FSM.SetState (mkPair 2 2) (NewFSM cancelled_plan).

Definition stopped : Event BenderSimulator :=
  mkEvent before_the_obstacle EAST "X"%char (mkPair 3 2) true
    (NextDirection (set_boom true (NewBenderSimulator 6))).

Definition at_start : FSM := NewFSM ["#####"; "#   #"; "# @ #"; "#   #"; "#####"].

(** * The scenarios of [main_test.go]

    The callbacks of the tests record the events they are called with.  The
    recorder is the context of the machine here; an entry keeps the
    direction, the tile and the coordinates of the event. *)

Record callbackRecorderCancel : Type := mkRecorder {
  bStack : list (string * ascii * Pair);
  eStack : list (string * ascii * Pair);
  cancelIdx : Z;
  beforeCnt : Z
}.

Definition newCallbackRecorderCancel (idx : Z) : callbackRecorderCancel :=
  mkRecorder [] [] idx 0.

Definition recorded {A} (e : Event A) : string * ascii * Pair :=
  (evEvent e, Dst e, dstC e).

Definition recorder_before : Callback callbackRecorderCancel := fun e =>
  let c := Args e in
  let c := mkRecorder (bStack c ++ [recorded e]) (eStack c) (cancelIdx c)
             (int_add (beforeCnt c) 1) in
  if bool_decide (cancelIdx c = beforeCnt c) then Returned (Cancel (set_Args c e))
  else Returned (set_Args c e).

Definition recorder_enter : Callback callbackRecorderCancel := fun e =>
  let c := Args e in
  Returned (set_Args (mkRecorder (bStack c) (eStack c ++ [recorded e]) (cancelIdx c)
                        (beforeCnt c)) e).

(** The event the recorder leaves when it cancels the first move of the
    test case "cancelled": a recorder made with [newCallbackRecorderCancel 1]
    cancels on the empty tile east of the start. *)
Definition cancelled_at_once : Event callbackRecorderCancel :=
  mkEvent (NewFSM cancelled_plan) EAST " "%char (mkPair 2 2) true
    (mkRecorder [(EAST, " "%char, mkPair 2 2)] [] 1 1).

(** The loop of [TestFSM] over the directions; the error of [Event] is
    dropped as the test drops it. *)
Fixpoint events {A} (beforeCB enterCB : Callback A) (dirs : list string) (f : FSM)
    (args : A) : outcome (FSM * A) :=
  match dirs with
  | [] => Returned (f, args)
  | d :: dirs' =>
      '(_, f, args) ← FSM.Event beforeCB enterCB f d args;
      events beforeCB enterCB dirs' f args
  end.

(** The calls of [TestBenderSimulator], with the values the test inspects:
    the nine directions, [Hurts], the path after the first four recordings,
    and [Loop] after twelve and after sixteen recordings. *)
Definition TestBenderSimulator
    : outcome (list string * bool * list string * bool * bool) :=
  let round := fun b =>
    Remember EAST "B32" (Remember EAST " 22" (Remember SOUTH " 12"
      (Remember SOUTH " 11" b))) in
  let b := NewBenderSimulator 9 in
  d1 ← Direction b;
  d2 ← Direction b;
  let b := NextDirection b in
  d3 ← Direction b;
  let b := NextDirection (NextDirection (NextDirection b)) in
  d4 ← Direction b;
  let b := PathModifier NORTH b in
  d5 ← Direction b;
  b ← Boom b;
  d6 ← Direction b;
  let b := NextDirection b in
  let hurts := Hurts b in
  let b := if Hurts b then BackOnTrack b else b in
  let b := NextDirection b in
  d7 ← Direction b;
  let b := InvertPriorities b in
  b ← Boom b;
  let b := NextDirection b in
  d8 ← Direction b;
  let b := NextDirection (NextDirection b) in
  d9 ← Direction b;
  let b := InvertPriorities b in
  b ← Boom b;
  let b := NextDirection b in
  d10 ← Direction b;
  let b := round b in
  let shown := ShowPath b in
  let b := round (round b) in
  let loop12 := Loop b in
  let b := round b in
  let loop16 := Loop b in
  Returned ([d1; d2; d3; d4; d5; d6; d7; d8; d9; d10], hurts, shown, loop12, loop16).

(** * Invariants of a run *)

(** The simulator as its operations keep it: the priorities are the four
    directions in some order, the selection is an index into them, and the
    override is empty or one of the four directions. *)
Definition steady (b : BenderSimulator) : Prop :=
  priorities b ≡ₚ [SOUTH; EAST; NORTH; WEST]
  ∧ 0 <= currDir b < 4
  ∧ pathModifier b ∈ [""; SOUTH; NORTH; EAST; WEST].

(** A machine next to an obstacle, with a simulator in breaker mode. *)
Definition breaking : BenderSimulator := InvertBreaker (NewBenderSimulator 6).

(** The frame of a maze: every position of the grid that is not strictly
    inside holds a wall. *)
Definition framed (f : FSM) : Prop :=
  ∀ p, inBounds f p → ¬ strictlyInside f p → tileAt f p = Some "#"%char.

(** The teleports are set up for the grid: if the grid has a teleport tile
    at all, the machine knows two teleport coordinates. *)
Definition teleports_set_up (f : FSM) : Prop :=
  ∀ p, tileAt f p = Some "T"%char → length (teleports f) = 2%nat.

(** A machine enclosed in its maze: the grid is rectangular with dimensions
    that are Go integers, it has a frame of walls, and the position and the
    teleport coordinates are strictly inside. *)
Definition enclosed (f : FSM) : Prop :=
  rectangular f
  ∧ width f <= int_max ∧ height f <= int_max
  ∧ framed f
  ∧ strictlyInside f (curr f)
  ∧ Forall (strictlyInside f) (teleports f)
  ∧ teleports_set_up f.

(** A machine that stands before a teleport tile but knows one teleport
    only. *)
Definition lone_teleport : FSM := NewFSM ["####"; "#@T#"; "####"].

(** A plan of one row. *)
Definition corridor : list string := ["#@ $#"].

(** * Properties *)

Ltac event_simpl :=
  cbn [mbind outcome_bind set_Args set_evFSM Args evEvent Dst dstC evFSM Cancelled
       Cancel UniqueDst FSM.SetState states teleports curr] in *.

(** ** Integers and slices *)

Lemma int_wrap_id (z : Z) : is_int z → int_wrap z = z.
Proof.
  unfold is_int, int_min, int_max, int_wrap. intros Hz.
  rewrite Z.mod_small by lia. lia.
Qed.

Lemma int_add_small (a b : Z) : is_int (a + b) → int_add a b = a + b.
Proof. apply int_wrap_id. Qed.

Lemma int_sub_small (a b : Z) : is_int (a - b) → int_sub a b = a - b.
Proof. apply int_wrap_id. Qed.

Lemma len_app {T} (l k : list T) : len (l ++ k) = len l + len k.
Proof. unfold len. rewrite length_app. lia. Qed.

Lemma len_nonneg {T} (l : list T) : 0 <= len l.
Proof. unfold len. lia. Qed.

Lemma slice_get_Some {T} (l : list T) (n : nat) (v : T) :
  l !! n = Some v → slice_get l (Z.of_nat n) = Returned v.
Proof.
  intros Hl. unfold slice_get, len.
  pose proof (lookup_lt_Some _ _ _ Hl).
  rewrite bool_decide_eq_true_2 by lia.
  by rewrite Nat2Z.id, Hl.
Qed.

Lemma slice_get_middle {T} (pre post : list T) (v : T) :
  slice_get (pre ++ v :: post) (len pre) = Returned v.
Proof. apply slice_get_Some, list_lookup_middle. done. Qed.

Lemma slice_set_middle {T} (pre post : list T) (v w : T) :
  slice_set (pre ++ v :: post) (len pre) w = Returned (pre ++ w :: post).
Proof.
  unfold slice_set, len. rewrite length_app. cbn [length].
  rewrite bool_decide_eq_true_2 by lia.
  rewrite Nat2Z.id. f_equal.
  by rewrite (insert_app_r_alt pre _ (length pre)), Nat.sub_diag by lia.
Qed.

(** One iteration of the loop on a slice [pre ++ a :: mid ++ c :: post]. *)
Lemma swap_get_i {T} (pre mid post : list T) (a c : T) :
  slice_get (pre ++ (a :: mid ++ [c]) ++ post) (len pre) = Returned a.
Proof.
  replace (pre ++ (a :: mid ++ [c]) ++ post) with (pre ++ a :: (mid ++ c :: post))
    by (cbn; by rewrite <- !app_assoc).
  apply slice_get_middle.
Qed.

Lemma swap_get_j {T} (pre mid post : list T) (a c : T) :
  slice_get (pre ++ (a :: mid ++ [c]) ++ post) (len (pre ++ a :: mid)) = Returned c.
Proof.
  replace (pre ++ (a :: mid ++ [c]) ++ post) with ((pre ++ a :: mid) ++ c :: post)
    by (cbn; by rewrite <- !app_assoc).
  apply slice_get_middle.
Qed.

Lemma swap_set_i {T} (pre mid post : list T) (a c v : T) :
  slice_set (pre ++ (a :: mid ++ [c]) ++ post) (len pre) v
  = Returned (pre ++ (v :: mid ++ [c]) ++ post).
Proof.
  replace (pre ++ (a :: mid ++ [c]) ++ post) with (pre ++ a :: (mid ++ c :: post))
    by (cbn; by rewrite <- !app_assoc).
  rewrite slice_set_middle. f_equal. cbn. by rewrite <- !app_assoc.
Qed.

Lemma swap_set_j {T} (pre mid post : list T) (a a' c v : T) :
  slice_set (pre ++ (a :: mid ++ [c]) ++ post) (len (pre ++ a' :: mid)) v
  = Returned (pre ++ (a :: mid ++ [v]) ++ post).
Proof.
  replace (len (pre ++ a' :: mid)) with (len (pre ++ a :: mid))
    by (rewrite !len_app; unfold len; cbn [length]; lia).
  replace (pre ++ (a :: mid ++ [c]) ++ post) with ((pre ++ a :: mid) ++ c :: post)
    by (cbn; by rewrite <- !app_assoc).
  rewrite slice_set_middle. f_equal. cbn. by rewrite <- !app_assoc.
Qed.

Lemma lt_half (i l : Z) : 0 <= l → i < l `quot` 2 ↔ 2 * i + 2 <= l.
Proof.
  intros Hl. rewrite Z.quot_div_nonneg by lia.
  pose proof (Z.div_mod l 2). pose proof (Z.mod_pos_bound l 2). lia.
Qed.

(** ** The reversal loop of [turnoverPriorities] *)

(** The invariant of the loop: with equally long parts [pre] and [post]
    already swapped into place around [mid], and the two indices at the ends
    of [mid], the loop reverses [mid] and stops. *)
Lemma turnover_loop_spec (n : nat) :
  ∀ mid pre post : list string,
    length pre = length post →
    (length mid ≤ 2 * n + 1)%nat →
    len (pre ++ mid ++ post) <= int_max →
    turnover_loop n (len pre) (len pre + len mid - 1) (pre ++ mid ++ post)
    = Returned (pre ++ rev mid ++ post).
Proof.
  induction n as [|n IH]; intros mid pre post Hpp Hn Hmax.
  - (* no iteration left: [mid] has at most one element *)
    cbn [turnover_loop].
    rewrite bool_decide_eq_false_2.
    + destruct mid as [|a [|c mid]]; cbn in *; [done | done | lia].
    + rewrite lt_half by apply len_nonneg.
      rewrite !len_app. unfold len in *. rewrite <- Hpp. lia.
  - cbn [turnover_loop].
    destruct mid as [|a mid].
    { rewrite bool_decide_eq_false_2; [done|].
      rewrite lt_half by apply len_nonneg.
      rewrite !len_app. unfold len in *. rewrite <- Hpp. cbn [length]. lia. }
    destruct mid as [|c mid _] using rev_ind.
    { rewrite bool_decide_eq_false_2; [done|].
      rewrite lt_half by apply len_nonneg.
      rewrite !len_app. unfold len in *. rewrite <- Hpp. cbn [length]. lia. }
    assert (Hlen : len (pre ++ (a :: mid ++ [c]) ++ post)
                   = 2 * len pre + len mid + 2).
    { rewrite !len_app. unfold len. rewrite <- Hpp. cbn [length].
      rewrite length_app. cbn [length]. lia. }
    rewrite bool_decide_eq_true_2.
    2:{ rewrite lt_half by apply len_nonneg. rewrite Hlen.
        pose proof (len_nonneg mid). lia. }
    assert (Hj : len pre + len (a :: mid ++ [c]) - 1 = len (pre ++ a :: mid)).
    { rewrite !len_app. unfold len. cbn [length]. rewrite length_app. cbn [length]. lia. }
    rewrite Hj.
    rewrite (swap_get_i pre mid post a c). cbn [mbind outcome_bind].
    rewrite (swap_get_j pre mid post a c). cbn [mbind outcome_bind].
    rewrite (swap_set_i pre mid post a c c). cbn [mbind outcome_bind].
    rewrite (swap_set_j pre mid post c a c a). cbn [mbind outcome_bind].
    pose proof (len_nonneg pre). pose proof (len_nonneg mid).
    rewrite Hlen in Hmax. unfold int_max in Hmax.
    rewrite int_add_small by (unfold is_int, int_min, int_max; lia).
    rewrite int_sub_small
      by (rewrite !len_app; unfold is_int, int_min, int_max, len in *; cbn [length]; lia).
    replace (pre ++ (c :: mid ++ [a]) ++ post)
      with ((pre ++ [c]) ++ mid ++ ([a] ++ post))
      by (cbn; by rewrite <- !app_assoc).
    replace (len pre + 1) with (len (pre ++ [c]))
      by (rewrite len_app; unfold len; cbn [length]; lia).
    replace (len (pre ++ a :: mid) - 1) with (len (pre ++ [c]) + len mid - 1)
      by (rewrite !len_app; unfold len; cbn [length]; lia).
    rewrite IH.
    + f_equal. cbn [rev]. rewrite rev_app_distr. cbn.
      by rewrite <- !app_assoc.
    + rewrite !length_app. cbn [length]. lia.
    + cbn [length] in Hn. rewrite length_app in Hn. cbn [length] in Hn. lia.
    + rewrite !len_app. unfold len in *. cbn [length].
      rewrite <- Hpp. unfold int_max. lia.
Qed.

Lemma turnoverPriorities_spec (b : BenderSimulator) :
  len (priorities b) <= int_max →
  turnoverPriorities b
  = Returned (set_invertPrio false (set_priorities (rev (priorities b)) b)).
Proof.
  intros Hmax. unfold turnoverPriorities.
  pose proof (len_nonneg (priorities b)).
  rewrite int_sub_small by (unfold is_int, int_min, int_max in *; lia).
  pose proof (turnover_loop_spec (length (priorities b)) (priorities b) [] []) as Hloop.
  cbn [app] in Hloop. rewrite !app_nil_r in Hloop.
  change (len []) with 0 in Hloop. rewrite Z.add_0_l in Hloop.
  rewrite Hloop; [done | done | lia | done].
Qed.

(** ** The simulator: priorities and their inversion *)

Lemma Boom_spec (b : BenderSimulator) :
  len (priorities b) <= int_max →
  Boom b = Returned
    (if invertPrio b
     then mkBender (done b) (breaker b) true true false (currDir b)
            (rev (priorities b)) "" (path b) (cache b) (loopCnt b) (maxNumStates b)
     else mkBender (done b) (breaker b) true (resetDir b) false (currDir b)
            (priorities b) "" (path b) (cache b) (loopCnt b) (maxNumStates b)).
Proof.
  intros Hmax. unfold Boom.
  destruct b as [d br bo rd ip cd ps pm pa ca lc mx].
  cbn [invertPrio set_pathModifier set_boom] in *.
  destruct ip; [|done].
  rewrite turnoverPriorities_spec by done. done.
Qed.

(** C3.  Arming the inversion ([InvertPriorities]) changes neither the
    priority ordering nor the direction [Direction] returns; so do all the
    other operations but [Boom].  The obstacle hit [Boom] returns, and it is
    there that a pending inversion is applied: the ordering is reversed, the
    retry-from-top flag [resetDir] is armed and the pending flag
    [invertPrio] is disarmed; with no inversion pending [Boom] keeps the
    ordering and [resetDir].  In particular a hit right after arming
    reverses the ordering exactly when no inversion was pending before. *)
Theorem C3_inversion_deferred_to_Boom (b : BenderSimulator) :
  len (priorities b) <= int_max →
  (priorities (InvertPriorities b) = priorities b
   ∧ currDir (InvertPriorities b) = currDir b
   ∧ resetDir (InvertPriorities b) = resetDir b
   ∧ Direction (InvertPriorities b) = Direction b)
  ∧ (∃ b', Boom b = Returned b'
       ∧ priorities b' = (if invertPrio b then rev (priorities b) else priorities b)
       ∧ resetDir b' = (if invertPrio b then true else resetDir b)
       ∧ invertPrio b' = false)
  ∧ (∃ b', Boom (InvertPriorities b) = Returned b'
       ∧ priorities b' = (if invertPrio b then priorities b else rev (priorities b))
       ∧ resetDir b' = (if invertPrio b then resetDir b else true)
       ∧ invertPrio b' = false)
  ∧ (priorities (NextDirection b) = priorities b
     ∧ priorities (BackOnTrack b) = priorities b
     ∧ priorities (InvertBreaker b) = priorities b
     ∧ priorities (Reached b) = priorities b
     ∧ (∀ dir, priorities (PathModifier dir b) = priorities b)
     ∧ (∀ dir state, priorities (Remember dir state b) = priorities b)).
Proof.
  intros Hmax. repeat split.
  - unfold InvertPriorities. by destruct (invertPrio b).
  - unfold InvertPriorities. by destruct (invertPrio b).
  - unfold InvertPriorities. by destruct (invertPrio b).
  - unfold Direction, InvertPriorities. by destruct (invertPrio b).
  - eexists. split; [by apply Boom_spec|]. by destruct (invertPrio b).
  - assert (Hmax' : len (priorities (InvertPriorities b)) <= int_max).
    { unfold InvertPriorities. by destruct (invertPrio b). }
    eexists. split; [by apply Boom_spec|].
    unfold InvertPriorities. by destruct (invertPrio b).
  - unfold NextDirection. destruct (resetDir b); [done|]. by case_bool_decide.
  - unfold InvertBreaker. by destruct (breaker b).
  - intros dir state. unfold Remember. cbn. by destruct (cache b !! state).
Qed.

Lemma C3_inversion_deferred_to_Boom_witness :
  len (priorities (NewBenderSimulator 9)) <= int_max
  ∧ Direction turned_over = Returned SOUTH
  ∧ ∃ b', Boom turned_over = Returned b'
          ∧ priorities b' = [WEST; NORTH; EAST; SOUTH].
Proof.
  assert (H : len (priorities (NewBenderSimulator 9)) <= int_max) by (by vm_compute).
  split; [exact H|].
  destruct (C3_inversion_deferred_to_Boom (NewBenderSimulator 9) H)
    as ((_ & _ & _ & Hdir) & _ & (b' & Hboom & Hprio & _) & _).
  split.
  - unfold turned_over. rewrite Hdir. reflexivity.
  - exists b'. split; [exact Hboom | exact Hprio].
Defined.

(** ** The simulator: cycling through the priorities *)

(** C6, as stated, fails when the retry-from-top flag is armed: the first of
    the four calls resets the index instead of advancing it.  After
    [BackOnTrack] on a new simulator the selection is index [0] ([SOUTH]);
    four calls of [NextDirection] leave it at index [3] ([WEST]). *)
Lemma C6_counterexample :
  currDir reset_pending = 0
  ∧ pathModifier reset_pending = ""
  ∧ Direction reset_pending = Returned SOUTH
  ∧ currDir (NextDirection (NextDirection (NextDirection (NextDirection reset_pending)))) = 3
  ∧ currDir (NextDirection (NextDirection (NextDirection (NextDirection reset_pending))))
    ≠ currDir reset_pending
  ∧ Direction (NextDirection (NextDirection (NextDirection (NextDirection reset_pending))))
    = Returned WEST.
Proof. by vm_compute. Qed.

Lemma NextDirection_cycle d br bo ip cd ps pm pa ca lc mx :
  is_int (len ps) →
  0 <= cd < len ps →
  NextDirection (mkBender d br bo false ip cd ps pm pa ca lc mx)
  = mkBender d br bo false ip (if bool_decide (cd + 1 = len ps) then 0 else cd + 1)
      ps pm pa ca lc mx.
Proof.
  intros Hlen Hcur. unfold NextDirection. cbn.
  rewrite int_add_small by (unfold is_int, int_min, int_max in *; lia).
  repeat case_bool_decide; (done || lia).
Qed.

(** C6, amended.  With the retry-from-top flag not armed, and the selection
    an index into the four priorities, four consecutive calls of
    [NextDirection] give back the simulator they started from: the
    selection index and the direction [Direction] returns are restored. *)
Theorem C6_four_NextDirection_cycle (b : BenderSimulator) :
  resetDir b = false →
  length (priorities b) = 4%nat →
  0 <= currDir b < 4 →
  NextDirection (NextDirection (NextDirection (NextDirection b))) = b
  ∧ currDir (NextDirection (NextDirection (NextDirection (NextDirection b)))) = currDir b
  ∧ Direction (NextDirection (NextDirection (NextDirection (NextDirection b))))
    = Direction b.
Proof.
  intros Hreset Hlen Hcur.
  assert (Hcyc : NextDirection (NextDirection (NextDirection (NextDirection b))) = b).
  { destruct b as [d br bo rd ip cd ps pm pa ca lc mx]. cbn in *. subst rd.
    assert (Hl : len ps = 4) by (unfold len; lia).
    assert (Hint : is_int (len ps)) by (rewrite Hl; by vm_compute).
    do 4 (rewrite NextDirection_cycle
            by (done || (rewrite ?Hl; repeat case_bool_decide; lia))).
    rewrite Hl. f_equal. repeat case_bool_decide; lia. }
  rewrite Hcyc. done.
Qed.

Lemma C6_four_NextDirection_cycle_witness :
  resetDir (NextDirection (NewBenderSimulator 9)) = false
  ∧ length (priorities (NextDirection (NewBenderSimulator 9))) = 4%nat
  ∧ 0 <= currDir (NextDirection (NewBenderSimulator 9)) < 4
  ∧ Direction (NextDirection (NextDirection (NextDirection (NextDirection
      (NextDirection (NewBenderSimulator 9))))))
    = Returned EAST.
Proof.
  assert (H1 : resetDir (NextDirection (NewBenderSimulator 9)) = false) by reflexivity.
  assert (H2 : length (priorities (NextDirection (NewBenderSimulator 9))) = 4%nat)
    by reflexivity.
  assert (H3 : 0 <= currDir (NextDirection (NewBenderSimulator 9)) < 4)
    by (by vm_compute).
  split; [exact H1|]. split; [exact H2|]. split; [exact H3|].
  destruct (C6_four_NextDirection_cycle _ H1 H2 H3) as (_ & _ & ->).
  reflexivity.
Defined.

(** ** The simulator: what entering a tile does to the policy *)

Lemma enterCallback_Returned (e e' : Event BenderSimulator) :
  enterCallback e = Returned e' →
  Args e' = Remember (evEvent e) (UniqueDst e)
              (tile_effect (Dst e)
                 (if Hurts (Args e) then BackOnTrack (Args e) else Args e))
  ∧ evEvent e' = evEvent e ∧ Dst e' = Dst e ∧ dstC e' = dstC e
  ∧ Cancelled e' = Cancelled e
  ∧ states (evFSM e') = states (evFSM e)
  ∧ teleports (evFSM e') = teleports (evFSM e).
Proof.
  unfold enterCallback, tile_effect.
  destruct e as [f evt t p c a]. event_simpl.
  repeat case_bool_decide; subst; try discriminate; event_simpl.
  all: try (intros [= <-]; event_simpl; repeat split; reflexivity).
  all: destruct (FSM.TeleportDst f p) as [q|msg] eqn:Hq; event_simpl; [|discriminate].
  all: intros [= <-]; event_simpl; repeat split; reflexivity.
Qed.

Lemma enterCallback_not_teleport (e : Event BenderSimulator) :
  Dst e ≠ "T"%char →
  enterCallback e
  = Returned (set_Args
      (Remember (evEvent e) (UniqueDst e)
         (tile_effect (Dst e)
            (if Hurts (Args e) then BackOnTrack (Args e) else Args e))) e).
Proof.
  intros HT. unfold enterCallback, tile_effect.
  destruct e as [f evt t p c a]. event_simpl.
  repeat case_bool_decide; subst; try discriminate; try congruence; event_simpl;
    reflexivity.
Qed.

Lemma Remember_frame (dir state : string) (b : BenderSimulator) :
  done (Remember dir state b) = done b
  ∧ breaker (Remember dir state b) = breaker b
  ∧ boom (Remember dir state b) = boom b
  ∧ resetDir (Remember dir state b) = resetDir b
  ∧ invertPrio (Remember dir state b) = invertPrio b
  ∧ currDir (Remember dir state b) = currDir b
  ∧ priorities (Remember dir state b) = priorities b
  ∧ pathModifier (Remember dir state b) = pathModifier b
  ∧ maxNumStates (Remember dir state b) = maxNumStates b
  ∧ path (Remember dir state b) = path b ++ [dir].
Proof. unfold Remember. cbn. by destruct (cache b !! state). Qed.

Lemma Remember_invertPrio (dir state : string) (b : BenderSimulator) :
  invertPrio (Remember dir state b) = invertPrio b.
Proof. apply Remember_frame. Qed.

Lemma Remember_priorities (dir state : string) (b : BenderSimulator) :
  priorities (Remember dir state b) = priorities b.
Proof. apply Remember_frame. Qed.

Lemma Remember_boom (dir state : string) (b : BenderSimulator) :
  boom (Remember dir state b) = boom b.
Proof. apply Remember_frame. Qed.

Lemma Remember_resetDir (dir state : string) (b : BenderSimulator) :
  resetDir (Remember dir state b) = resetDir b.
Proof. apply Remember_frame. Qed.

Lemma tile_effect_frame (tile : ascii) (b : BenderSimulator) :
  boom (tile_effect tile b) = boom b
  ∧ resetDir (tile_effect tile b) = resetDir b
  ∧ currDir (tile_effect tile b) = currDir b
  ∧ priorities (tile_effect tile b) = priorities b.
Proof.
  unfold tile_effect, InvertBreaker, InvertPriorities.
  repeat case_bool_decide; try done.
  - by destruct (breaker b).
  - by destruct (invertPrio b).
Qed.

Lemma Remember_path (dir state : string) (b : BenderSimulator) :
  path (Remember dir state b) = path b ++ [dir].
Proof. apply Remember_frame. Qed.

Lemma tile_effect_path (tile : ascii) (b : BenderSimulator) :
  path (tile_effect tile b) = path b.
Proof.
  unfold tile_effect, InvertBreaker, InvertPriorities.
  repeat case_bool_decide; try done.
  - by destruct (breaker b).
  - by destruct (invertPrio b).
Qed.

Lemma enterCallback_invert_tile (f : FSM) (evt : string) (p : Pair) (c : bool)
    (b : BenderSimulator) :
  ∃ e' : Event BenderSimulator,
    enterCallback (mkEvent f evt "I"%char p c b) = Returned e'
    ∧ invertPrio (Args e') = negb (invertPrio b)
    ∧ priorities (Args e') = priorities b.
Proof.
  eexists. split; [apply enterCallback_not_teleport; discriminate|].
  cbn [Args set_Args Dst evEvent].
  change (tile_effect "I") with InvertPriorities.
  rewrite Remember_invertPrio, Remember_priorities.
  unfold InvertPriorities, Hurts, BackOnTrack.
  destruct b as [d br bo rd ip cd ps pm pa ca lc mx].
  cbn [invertPrio priorities boom set_invertPrio set_resetDir set_boom].
  destruct bo, ip; split; reflexivity.
Qed.

(** C9.  [InvertPriorities] toggles the pending-inversion flag: one call
    negates it, two consecutive calls give back the simulator they started
    from, so everything computed from it afterwards, the priority orderings
    included, is as it would have been.  Entering two invert-priority tiles
    in a row (two calls of [enterCallback] with tile ['I'], whatever the
    machine, the direction and the coordinates) leaves the flag and the
    ordering as they were before the first. *)
Theorem C9_InvertPriorities_toggles (b : BenderSimulator) :
  invertPrio (InvertPriorities b) = negb (invertPrio b)
  ∧ InvertPriorities (InvertPriorities b) = b
  ∧ ∀ (f1 f2 : FSM) (evt1 evt2 : string) (p1 p2 : Pair) (c1 c2 : bool),
      ∃ e1 e2 : Event BenderSimulator,
        enterCallback (mkEvent f1 evt1 "I"%char p1 c1 b) = Returned e1
        ∧ enterCallback (mkEvent f2 evt2 "I"%char p2 c2 (Args e1)) = Returned e2
        ∧ invertPrio (Args e1) = negb (invertPrio b)
        ∧ invertPrio (Args e2) = invertPrio b
        ∧ priorities (Args e2) = priorities b.
Proof.
  split; [|split].
  - unfold InvertPriorities. by destruct (invertPrio b).
  - destruct b as [d br bo rd ip cd ps pm pa ca lc mx].
    unfold InvertPriorities. by destruct ip.
  - intros f1 f2 evt1 evt2 p1 p2 c1 c2.
    destruct (enterCallback_invert_tile f1 evt1 p1 c1 b) as (e1 & He1 & Hf1 & Hp1).
    destruct (enterCallback_invert_tile f2 evt2 p2 c2 (Args e1)) as (e2 & He2 & Hf2 & Hp2).
    exists e1, e2. repeat split; try assumption.
    + rewrite Hf2, Hf1. apply negb_involutive.
    + by rewrite Hp2.
Qed.

(** C10.  [BackOnTrack] clears the obstacle-hit flag and arms the
    retry-from-top flag, whatever the state and whether or not an inversion
    is pending; the next [NextDirection] then selects the first priority,
    whatever the index was, and disarms the flag.  [enterCallback] does so
    on every committed move made while the obstacle-hit flag is set: when it
    returns, the flag is cleared, the reset flag is armed, and the next
    [NextDirection] selects index [0]. *)
Theorem C10_BackOnTrack_arms_reset (b : BenderSimulator) :
  boom (BackOnTrack b) = false
  ∧ resetDir (BackOnTrack b) = true
  ∧ invertPrio (BackOnTrack b) = invertPrio b
  ∧ currDir (NextDirection (BackOnTrack b)) = 0
  ∧ resetDir (NextDirection (BackOnTrack b)) = false
  ∧ ∀ (f : FSM) (evt : string) (tile : ascii) (p : Pair) (c : bool)
      (e' : Event BenderSimulator),
      enterCallback (mkEvent f evt tile p c (set_boom true b)) = Returned e' →
      boom (Args e') = false
      ∧ resetDir (Args e') = true
      ∧ currDir (NextDirection (Args e')) = 0.
Proof.
  repeat split; try reflexivity.
  all: apply enterCallback_Returned in H as (Hargs & _); rewrite Hargs;
    cbn [Args Hurts boom set_boom Dst].
  - rewrite Remember_boom. by rewrite (proj1 (tile_effect_frame _ _)).
  - rewrite Remember_resetDir.
    by rewrite (proj1 (proj2 (tile_effect_frame _ _))).
  - unfold NextDirection. rewrite Remember_resetDir.
    by rewrite (proj1 (proj2 (tile_effect_frame _ _))).
Qed.

(** ** The simulator: loop detection *)

Lemma Remember_novel (dir state : string) (b : BenderSimulator) :
  cache b !! state = None →
  loopCnt (Remember dir state b) = 0
  ∧ cache (Remember dir state b) = <[state := true]> (cache b).
Proof. intros Hc. unfold Remember. cbn. by rewrite Hc. Qed.

Lemma Remember_repeat (dir state : string) (b : BenderSimulator) :
  is_Some (cache b !! state) →
  loopCnt (Remember dir state b) = int_add (loopCnt b) 1
  ∧ cache (Remember dir state b) = cache b.
Proof. intros [v Hc]. unfold Remember. cbn. by rewrite Hc. Qed.

Lemma Remember_maxNumStates (dir state : string) (b : BenderSimulator) :
  maxNumStates (Remember dir state b) = maxNumStates b.
Proof. apply Remember_frame. Qed.

Lemma RememberAll_repeats (dirs : list string) :
  ∀ (state : string) (b : BenderSimulator),
    is_Some (cache b !! state) →
    0 <= loopCnt b →
    loopCnt b + len dirs <= int_max →
    loopCnt (RememberAll dirs state b) = loopCnt b + len dirs
    ∧ maxNumStates (RememberAll dirs state b) = maxNumStates b.
Proof.
  induction dirs as [|dir dirs IH]; intros state b Hc Hcnt Hmax.
  - cbn. change (len []) with 0. split; [lia | done].
  - change (RememberAll (dir :: dirs) state b)
      with (RememberAll dirs state (Remember dir state b)).
    destruct (Remember_repeat dir state b Hc) as (Hl & Hca).
    assert (Hlen : len (dir :: dirs) = 1 + len dirs) by (unfold len; cbn [length]; lia).
    pose proof (len_nonneg dirs).
    rewrite int_add_small in Hl by (unfold is_int, int_min, int_max in *; lia).
    destruct (IH state (Remember dir state b)) as (IH1 & IH2).
    + by rewrite Hca.
    + lia.
    + lia.
    + rewrite IH1, IH2, Hl, Hlen, Remember_maxNumStates. split; [lia | done].
Qed.

(** C4, as stated, is off by one on a simulator that has not seen the
    state: the first recording is novel and sets the counter to zero.  With
    threshold [2], three consecutive recordings of one identifier leave the
    counter at [2], which does not exceed the threshold. *)
Lemma C4_counterexample :
  Loop (Remember SOUTH " 11" (Remember SOUTH " 11" (Remember SOUTH " 11"
          (NewBenderSimulator 2)))) = false
  ∧ loopCnt (Remember SOUTH " 11" (Remember SOUTH " 11" (Remember SOUTH " 11"
          (NewBenderSimulator 2)))) = 2.
Proof. by vm_compute. Qed.

(** C4, amended.  What is counted are the consecutive revisits.  A novel
    state sets the counter to zero and enters the cache; a repeat adds one.
    Starting with the counter at zero on a state already in the cache (so
    right after a novel recording), [threshold + 1] consecutive recordings
    of that state make [Loop] true, and [threshold] or fewer do not.  On a
    new simulator with threshold [n] it therefore takes [n + 2] consecutive
    recordings of one identifier, and [n + 1] are not enough. *)
Theorem C4_loop_threshold (b : BenderSimulator) (state : string) :
  is_Some (cache b !! state) →
  loopCnt b = 0 →
  0 <= maxNumStates b < int_max →
  (∀ dirs : list string,
     len dirs = maxNumStates b + 1 → Loop (RememberAll dirs state b) = true)
  ∧ (∀ dirs : list string,
       len dirs <= maxNumStates b → Loop (RememberAll dirs state b) = false)
  ∧ (∀ (b0 : BenderSimulator) (dir s : string),
       cache b0 !! s = None →
       loopCnt (Remember dir s b0) = 0 ∧ is_Some (cache (Remember dir s b0) !! s))
  ∧ (∀ (b0 : BenderSimulator) (dir s : string),
       is_Some (cache b0 !! s) →
       loopCnt (Remember dir s b0) = int_add (loopCnt b0) 1)
  ∧ (∀ dir s : string,
       Loop (RememberAll (replicate (Z.to_nat (maxNumStates b) + 2) dir) s
               (NewBenderSimulator (maxNumStates b))) = true
       ∧ Loop (RememberAll (replicate (Z.to_nat (maxNumStates b) + 1) dir) s
                 (NewBenderSimulator (maxNumStates b))) = false).
Proof.
  intros Hc Hcnt Hmax.
  assert (Hthr : ∀ (b1 : BenderSimulator) (s : string) (dirs : list string),
            is_Some (cache b1 !! s) → loopCnt b1 = 0 →
            0 <= maxNumStates b1 < int_max →
            len dirs <= maxNumStates b1 + 1 →
            Loop (RememberAll dirs s b1)
            = bool_decide (len dirs = maxNumStates b1 + 1)).
  { intros b1 s dirs Hc1 Hcnt1 Hmax1 Hlen.
    destruct (RememberAll_repeats dirs s b1 Hc1) as (Hl & Hm); [lia | lia |].
    unfold Loop. rewrite Hl, Hm, Hcnt1.
    repeat case_bool_decide; (done || lia). }
  split; [|split; [|split; [|split]]].
  - intros dirs Hlen. rewrite Hthr by (done || lia).
    by rewrite bool_decide_eq_true_2.
  - intros dirs Hlen. rewrite Hthr by (done || lia).
    rewrite bool_decide_eq_false_2; [done | lia].
  - intros b0 dir s Hnone. destruct (Remember_novel dir s b0 Hnone) as (Hl & Hca).
    split; [done|]. rewrite Hca, lookup_insert_eq. by eexists.
  - intros b0 dir s Hsome. by apply Remember_repeat.
  - intros dir s.
    assert (Hnew : cache (NewBenderSimulator (maxNumStates b)) !! s = None)
      by apply lookup_empty.
    destruct (Remember_novel dir s _ Hnew) as (Hl & Hca).
    assert (Hin : is_Some (cache (Remember dir s (NewBenderSimulator (maxNumStates b))) !! s)).
    { rewrite Hca, lookup_insert_eq. by eexists. }
    assert (Hm : maxNumStates (Remember dir s (NewBenderSimulator (maxNumStates b)))
                 = maxNumStates b) by (by rewrite Remember_maxNumStates).
    replace (Z.to_nat (maxNumStates b) + 2)%nat with (S (Z.to_nat (maxNumStates b) + 1))
      by lia.
    replace (Z.to_nat (maxNumStates b) + 1)%nat with (S (Z.to_nat (maxNumStates b)))
      at 2 by lia.
    cbn [replicate].
    change (RememberAll (dir :: ?l) s ?b1) with (RememberAll l s (Remember dir s b1)).
    split.
    + rewrite Hthr.
      * rewrite bool_decide_eq_true_2; [done|].
        unfold len. rewrite length_replicate, Hm. lia.
      * done.
      * done.
      * by rewrite Hm.
      * unfold len. rewrite length_replicate, Hm. lia.
    + rewrite Hthr.
      * rewrite bool_decide_eq_false_2; [done|].
        unfold len. rewrite length_replicate, Hm. lia.
      * done.
      * done.
      * by rewrite Hm.
      * unfold len. rewrite length_replicate, Hm. lia.
Qed.

Lemma C4_loop_threshold_witness :
  is_Some (cache seen_once !! " 11")
  ∧ loopCnt seen_once = 0
  ∧ 0 <= maxNumStates seen_once < int_max
  ∧ Loop (RememberAll [SOUTH; SOUTH; SOUTH] " 11" seen_once) = true
  ∧ Loop (RememberAll [SOUTH; SOUTH] " 11" seen_once) = false.
Proof.
  assert (H1 : is_Some (cache seen_once !! " 11")) by (by eexists).
  assert (H2 : loopCnt seen_once = 0) by reflexivity.
  assert (H3 : 0 <= maxNumStates seen_once < int_max) by (by vm_compute).
  split; [exact H1|]. split; [exact H2|]. split; [exact H3|].
  destruct (C4_loop_threshold seen_once " 11" H1 H2 H3) as (Hup & Hlow & _).
  split.
  - apply Hup. reflexivity.
  - apply Hlow. by vm_compute.
Defined.

(** ** The machine: teleports *)

(** C7.  With exactly two teleport coordinates [p] and [q] in the machine,
    [TeleportDst] at [p] returns [q] and at [q] returns [p]; with any other
    number of teleport coordinates it panics, whatever the argument. *)
Theorem C7_TeleportDst_symmetric (f : FSM) :
  (∀ p q : Pair,
     teleports f = [p; q] →
     FSM.TeleportDst f p = Returned q ∧ FSM.TeleportDst f q = Returned p)
  ∧ (length (teleports f) ≠ 2%nat →
     ∀ ps : Pair, FSM.TeleportDst f ps = Panicked "teleports badly setup").
Proof.
  split.
  - intros p q Htp. unfold FSM.TeleportDst. rewrite Htp.
    rewrite bool_decide_eq_false_2 by (unfold len; cbn; lia).
    change (slice_get [p; q] 0) with (Returned p).
    change (slice_get [p; q] 1) with (Returned q).
    cbn [mbind outcome_bind]. split.
    + by rewrite !bool_decide_eq_true_2.
    + destruct (bool_decide (x p = x q)) eqn:Hx, (bool_decide (y p = y q)) eqn:Hy;
        cbn [andb]; try reflexivity.
      apply bool_decide_eq_true_1 in Hx, Hy.
      destruct p, q; cbn in *; by subst.
  - intros Hlen ps. unfold FSM.TeleportDst.
    rewrite bool_decide_eq_true_2; [done|]. unfold len. lia.
Qed.

Lemma C7_TeleportDst_symmetric_witness :
  teleports two_teleports = [mkPair 3 1; mkPair 4 2]
  ∧ FSM.TeleportDst two_teleports (mkPair 3 1) = Returned (mkPair 4 2)
  ∧ FSM.TeleportDst two_teleports (mkPair 4 2) = Returned (mkPair 3 1)
  ∧ length (teleports (NewFSM ["####"; "#@T#"; "####"])) ≠ 2%nat
  ∧ FSM.TeleportDst (NewFSM ["####"; "#@T#"; "####"]) (mkPair 2 1)
    = Panicked "teleports badly setup".
Proof.
  assert (H1 : teleports two_teleports = [mkPair 3 1; mkPair 4 2]) by reflexivity.
  assert (H2 : length (teleports (NewFSM ["####"; "#@T#"; "####"])) ≠ 2%nat)
    by (cbn; discriminate).
  split; [exact H1|].
  split; [exact (proj1 (proj1 (C7_TeleportDst_symmetric two_teleports) _ _ H1))|].
  split; [exact (proj2 (proj1 (C7_TeleportDst_symmetric two_teleports) _ _ H1))|].
  split; [exact H2|].
  exact (proj2 (C7_TeleportDst_symmetric _) H2 _).
Defined.

(** ** The machine: bounds *)

Lemma unknown_state_inBounds (f : FSM) (p : Pair) :
  inBounds f p → FSM.unknown_state f p = Returned false.
Proof.
  unfold inBounds, width, height, FSM.unknown_state.
  destruct (states f) as [|row0 rows] eqn:Hst; [lia|].
  intros [Hx Hy].
  rewrite bool_decide_eq_false_2 by lia.
  change (slice_get (row0 :: rows) 0) with (Returned row0).
  cbn [mbind outcome_bind].
  rewrite !bool_decide_eq_false_2 by lia. done.
Qed.

Lemma unknown_state_outside (f : FSM) (p : Pair) :
  states f ≠ [] → ¬ inBounds f p → FSM.unknown_state f p = Returned true.
Proof.
  unfold inBounds, width, height, FSM.unknown_state.
  destruct (states f) as [|row0 rows] eqn:Hst; [done|].
  intros _ Hout.
  change (slice_get (row0 :: rows) 0) with (Returned row0).
  cbn [mbind outcome_bind].
  repeat case_bool_decide; (done || lia).
Qed.

Lemma tileAt_slice_get (f : FSM) (p : Pair) (tile : ascii) :
  tileAt f p = Some tile →
  ∃ row, slice_get (states f) (y p) = Returned row
         ∧ slice_get row (x p) = Returned tile.
Proof.
  unfold tileAt. case_bool_decide as Hpos; [|done].
  destruct (states f !! Z.to_nat (y p)) as [row|] eqn:Hrow; [|done].
  cbn [mbind option_bind]. intros Htile. exists row.
  rewrite <- (Z2Nat.id (y p)), <- (Z2Nat.id (x p)) by lia.
  split; by apply slice_get_Some.
Qed.

Lemma rectangular_tileAt (f : FSM) (p : Pair) :
  rectangular f → inBounds f p → ∃ tile, tileAt f p = Some tile.
Proof.
  unfold rectangular, inBounds, height, tileAt. intros Hrect [Hx Hy].
  rewrite bool_decide_eq_true_2 by lia.
  destruct (lookup_lt_is_Some_2 (states f) (Z.to_nat (y p))) as [row Hrow].
  { unfold len in Hy. lia. }
  rewrite Hrow. cbn [mbind option_bind].
  rewrite Forall_lookup in Hrect. specialize (Hrect _ _ Hrow). cbn in Hrect.
  apply lookup_lt_is_Some_2. unfold len in Hrect. lia.
Qed.

Lemma Event_inBounds {A} (beforeCB enterCB : Callback A) (f : FSM) (evt : string)
    (args : A) (tile : ascii) :
  inBounds f (FSM.destination f evt) →
  tileAt f (FSM.destination f evt) = Some tile →
  FSM.Event beforeCB enterCB f evt args
  = callbacks beforeCB enterCB (FSM.destination f evt)
      (mkEvent f evt tile (FSM.destination f evt) false args).
Proof.
  intros Hin Htile. unfold FSM.Event. cbv zeta.
  rewrite unknown_state_inBounds by done. cbn [mbind outcome_bind].
  destruct (tileAt_slice_get _ _ _ Htile) as (row & Hrow & Hcol).
  rewrite Hrow. cbn [mbind outcome_bind]. rewrite Hcol. reflexivity.
Qed.

(** C2.  On a grid with at least one row, when the destination computed for
    the event lies out of bounds, [Event] returns the error "unknown state"
    and hands back the machine (position and tiles) and the context as they
    were; this holds whatever the two callbacks are, so neither is
    invoked. *)
Theorem C2_out_of_bounds_error {A} (beforeCB enterCB : Callback A) (f : FSM)
    (evt : string) (args : A) :
  states f ≠ [] →
  ¬ inBounds f (FSM.destination f evt) →
  FSM.Event beforeCB enterCB f evt args
  = Returned (Some ("unknown state " +:+ fmt_Pair (FSM.destination f evt)), f, args).
Proof.
  intros Hne Hout. unfold FSM.Event. cbv zeta.
  rewrite unknown_state_outside by done. reflexivity.
Qed.

Lemma C2_out_of_bounds_error_witness :
  states on_the_frame ≠ []
  ∧ ¬ inBounds on_the_frame (FSM.destination on_the_frame NORTH)
  ∧ FSM.Event panicCB panicCB on_the_frame NORTH ()
    = Returned (Some "unknown state {1 -1}", on_the_frame, ()).
Proof.
  assert (H1 : states on_the_frame ≠ []) by discriminate.
  assert (H2 : ¬ inBounds on_the_frame (FSM.destination on_the_frame NORTH)).
  { intros [_ [Hy _]]. vm_compute in Hy. by apply Hy. }
  split; [exact H1|]. split; [exact H2|].
  exact (C2_out_of_bounds_error panicCB panicCB on_the_frame NORTH () H1 H2).
Defined.

(** ** The machine: the callback protocol *)

Lemma callbacks_no_error {A} (beforeCB enterCB : Callback A) (dst : Pair) (e : Event A)
    (msg : string) (f' : FSM) (args' : A) :
  callbacks beforeCB enterCB dst e ≠ Returned (Some msg, f', args').
Proof.
  unfold callbacks. destruct (beforeCB e) as [e1|m1]; cbn [mbind outcome_bind]; [|done].
  destruct (Cancelled e1); [done|].
  destruct (enterCB _) as [e2|m2]; cbn [mbind outcome_bind]; done.
Qed.

(** A cancelled event: whatever the callbacks are, [Event] returns [nil]
    with the machine and context as the before callback left them. *)
Lemma Event_cancelled {A} (beforeCB enterCB : Callback A) (f : FSM) (evt : string)
    (args : A) (tile : ascii) (e1 : Event A) :
  inBounds f (FSM.destination f evt) →
  tileAt f (FSM.destination f evt) = Some tile →
  beforeCB (mkEvent f evt tile (FSM.destination f evt) false args) = Returned e1 →
  Cancelled e1 = true →
  FSM.Event beforeCB enterCB f evt args = Returned (None, evFSM e1, Args e1).
Proof.
  intros Hin Htile Hbefore Hcancel.
  rewrite (Event_inBounds _ _ _ _ _ tile) by done.
  unfold callbacks. rewrite Hbefore. cbn [mbind outcome_bind].
  by rewrite Hcancel.
Qed.

(** An event that is not cancelled: the position is set to the destination
    and the enter callback runs on that machine. *)
Lemma Event_entered {A} (beforeCB enterCB : Callback A) (f : FSM) (evt : string)
    (args : A) (tile : ascii) (e1 : Event A) :
  inBounds f (FSM.destination f evt) →
  tileAt f (FSM.destination f evt) = Some tile →
  beforeCB (mkEvent f evt tile (FSM.destination f evt) false args) = Returned e1 →
  Cancelled e1 = false →
  FSM.Event beforeCB enterCB f evt args
  = (e2 ← enterCB (set_evFSM (FSM.SetState (FSM.destination f evt) (evFSM e1)) e1);
     Returned (None, evFSM e2, Args e2)).
Proof.
  intros Hin Htile Hbefore Hcancel.
  rewrite (Event_inBounds _ _ _ _ _ tile) by done.
  unfold callbacks. rewrite Hbefore. cbn [mbind outcome_bind].
  by rewrite Hcancel.
Qed.

(** ** The policy at an obstacle *)

Lemma Boom_frame (b b' : BenderSimulator) :
  Boom b = Returned b' →
  done b' = done b ∧ breaker b' = breaker b ∧ currDir b' = currDir b
  ∧ path b' = path b ∧ cache b' = cache b ∧ loopCnt b' = loopCnt b
  ∧ maxNumStates b' = maxNumStates b
  ∧ boom b' = true ∧ pathModifier b' = "".
Proof.
  unfold Boom, turnoverPriorities.
  destruct b as [d br bo rd ip cd ps pm pa ca lc mx].
  cbn [invertPrio set_pathModifier set_boom priorities].
  destruct ip.
  - destruct (turnover_loop _ _ _ _) as [ps'|msg]; cbn [mbind outcome_bind]; [|done].
    intros [= <-]. by repeat split.
  - intros [= <-]. by repeat split.
Qed.

Lemma NextDirection_frame (b : BenderSimulator) :
  done (NextDirection b) = done b ∧ breaker (NextDirection b) = breaker b
  ∧ path (NextDirection b) = path b ∧ cache (NextDirection b) = cache b
  ∧ loopCnt (NextDirection b) = loopCnt b
  ∧ maxNumStates (NextDirection b) = maxNumStates b
  ∧ boom (NextDirection b) = boom b
  ∧ pathModifier (NextDirection b) = pathModifier b.
Proof.
  unfold NextDirection. destruct (resetDir b); [done|]. by case_bool_decide.
Qed.

Lemma hit_obstacle_Returned (e e' : Event BenderSimulator) :
  hit_obstacle e = Returned e' →
  evFSM e' = evFSM e ∧ Cancelled e' = true
  ∧ ∃ b1, Boom (Args e) = Returned b1 ∧ Args e' = NextDirection b1.
Proof.
  unfold hit_obstacle.
  destruct (Boom (Args e)) as [b1|msg] eqn:Hboom; cbn [mbind outcome_bind]; [|done].
  intros [= <-]. event_simpl. eauto.
Qed.

Lemma ChangeDst_Cancelled {A} (tile : ascii) (e e' : Event A) :
  ChangeDst tile e = Returned e' → Cancelled e' = Cancelled e ∧ Args e' = Args e.
Proof.
  unfold ChangeDst.
  destruct (slice_get _ _) as [row|]; cbn [mbind outcome_bind]; [|done].
  destruct (slice_set row _ _) as [row'|]; cbn [mbind outcome_bind]; [|done].
  destruct (slice_set (states _) _ _) as [sts|]; cbn [mbind outcome_bind]; [|done].
  intros [= <-]. done.
Qed.

(** When [beforeCallback] cancels an event it has hit an obstacle: the
    machine is as it was, and the simulator went through [Boom] and
    [NextDirection]. *)
Lemma beforeCallback_cancels (e e' : Event BenderSimulator) :
  beforeCallback e = Returned e' →
  Cancelled e = false →
  Cancelled e' = true →
  evFSM e' = evFSM e
  ∧ (Dst e = "#"%char ∨ (Dst e = "X"%char ∧ Breaker (Args e) = false))
  ∧ ∃ b1, Boom (Args e) = Returned b1 ∧ Args e' = NextDirection b1.
Proof.
  unfold beforeCallback.
  case_bool_decide as Hwall; [|case_bool_decide as Hx].
  - intros He Hc0 Hc. apply hit_obstacle_Returned in He as (Hf & _ & Hb). auto.
  - destruct (Breaker (Args e)) eqn:Hbr.
    + intros He Hc0 Hc. apply ChangeDst_Cancelled in He as (Hcc & _). congruence.
    + intros He Hc0 Hc. apply hit_obstacle_Returned in He as (Hf & _ & Hb). auto.
  - intros [= <-] Hc0 Hc. congruence.
Qed.

(** The recorder of [TestFSM] leaves the machine of the event alone, and
    when it cancels it has added nothing to its enter stack. *)
Lemma recorder_before_Returned (e e' : Event callbackRecorderCancel) :
  recorder_before e = Returned e' →
  evFSM e' = evFSM e
  ∧ eStack (Args e') = eStack (Args e)
  ∧ bStack (Args e') = bStack (Args e) ++ [recorded e].
Proof.
  unfold recorder_before. cbv zeta. cbn [cancelIdx beforeCnt].
  case_bool_decide; by intros [= <-].
Qed.

(** C1.  Cancellation, the contract of [Event] for every pre-transition
    callback.  Let the destination of the event be in bounds, with tile
    [tile].

    - For every type of context and every pair of callbacks: if the before
      callback returns with the cancellation flag set, [Event] returns
      [nil], and the machine and the context it hands back are exactly the
      ones the before callback left: [Event] itself makes no move.  The
      enter callback is not invoked: the result is the same with an enter
      callback that panics as soon as it is called.  Hence, for a before
      callback that does not itself reposition the machine, the position
      after [Event] is the position before the call.
    - For the callbacks of the policy: [beforeCallback] leaves the machine
      as it was, so the machine handed back is the one given, and the
      simulator has its path, cache, loop counter and [done] flag
      unchanged: no path entry has been appended.
    - For the recorder of [TestFSM]: the machine handed back is the one
      given and the enter stack has not grown. *)
Theorem C1_cancelled_move (f : FSM) (evt : string) (tile : ascii) :
  inBounds f (FSM.destination f evt) →
  tileAt f (FSM.destination f evt) = Some tile →
  (∀ (A : Type) (beforeCB enterCB : Callback A) (args : A) (e1 : Event A),
     beforeCB (mkEvent f evt tile (FSM.destination f evt) false args) = Returned e1 →
     Cancelled e1 = true →
     FSM.Event beforeCB enterCB f evt args = Returned (None, evFSM e1, Args e1)
     ∧ FSM.Event beforeCB panicCB f evt args = Returned (None, evFSM e1, Args e1)
     ∧ (curr (evFSM e1) = curr f →
        ∃ f', FSM.Event beforeCB enterCB f evt args = Returned (None, f', Args e1)
              ∧ curr f' = curr f))
  ∧ (∀ (enterCB : Callback BenderSimulator) (b : BenderSimulator)
       (e1 : Event BenderSimulator),
     beforeCallback (mkEvent f evt tile (FSM.destination f evt) false b) = Returned e1 →
     Cancelled e1 = true →
     FSM.Event beforeCallback enterCB f evt b = Returned (None, f, Args e1)
     ∧ path (Args e1) = path b
     ∧ cache (Args e1) = cache b
     ∧ loopCnt (Args e1) = loopCnt b
     ∧ done (Args e1) = done b)
  ∧ (∀ (enterCB : Callback callbackRecorderCancel) (c : callbackRecorderCancel)
       (e1 : Event callbackRecorderCancel),
     recorder_before (mkEvent f evt tile (FSM.destination f evt) false c) = Returned e1 →
     Cancelled e1 = true →
     FSM.Event recorder_before enterCB f evt c = Returned (None, f, Args e1)
     ∧ eStack (Args e1) = eStack c).
Proof.
  intros Hin Htile. split_and!.
  - intros A beforeCB enterCB args e1 Hbefore Hcancel.
    pose proof (Event_cancelled beforeCB enterCB f evt args tile e1
                  Hin Htile Hbefore Hcancel) as Hev.
    pose proof (Event_cancelled beforeCB panicCB f evt args tile e1
                  Hin Htile Hbefore Hcancel) as Hpanic.
    split; [exact Hev|]. split; [exact Hpanic|].
    intros Hcurr. exists (evFSM e1). by split.
  - intros enterCB b e1 Hbefore Hcancel.
    destruct (beforeCallback_cancels _ _ Hbefore eq_refl Hcancel)
      as (Hf & _ & b1 & Hboom & Hargs).
    cbn [evFSM Args] in Hf, Hboom.
    rewrite (Event_cancelled _ enterCB f evt b tile e1) by done.
    rewrite Hf, Hargs.
    destruct (Boom_frame _ _ Hboom) as (Hd & _ & _ & Hp & Hc & Hl & _).
    destruct (NextDirection_frame b1) as (Hd' & _ & Hp' & Hc' & Hl' & _).
    rewrite Hd', Hp', Hc', Hl'. by repeat split.
  - intros enterCB c e1 Hbefore Hcancel.
    destruct (recorder_before_Returned _ _ Hbefore) as (Hf & He & _).
    cbn [evFSM Args] in Hf, He.
    rewrite (Event_cancelled _ enterCB f evt c tile e1) by done.
    by rewrite Hf, He.
Qed.

Lemma C1_cancelled_move_witness :
  inBounds (NewFSM cancelled_plan) (FSM.destination (NewFSM cancelled_plan) EAST)
  ∧ tileAt (NewFSM cancelled_plan) (FSM.destination (NewFSM cancelled_plan) EAST)
    = Some " "%char
  ∧ recorder_before (mkEvent (NewFSM cancelled_plan) EAST " "%char
                       (FSM.destination (NewFSM cancelled_plan) EAST) false
                       (newCallbackRecorderCancel 1)) = Returned cancelled_at_once
  ∧ Cancelled cancelled_at_once = true
  ∧ FSM.Event recorder_before recorder_enter (NewFSM cancelled_plan) EAST
      (newCallbackRecorderCancel 1)
    = Returned (None, NewFSM cancelled_plan, Args cancelled_at_once)
  ∧ FSM.Event recorder_before panicCB (NewFSM cancelled_plan) EAST
      (newCallbackRecorderCancel 1)
    = Returned (None, NewFSM cancelled_plan, Args cancelled_at_once)
  ∧ curr (NewFSM cancelled_plan) = mkPair 1 2
  ∧ eStack (Args cancelled_at_once) = []
  ∧ inBounds before_the_obstacle (FSM.destination before_the_obstacle EAST)
  ∧ tileAt before_the_obstacle (FSM.destination before_the_obstacle EAST) = Some "X"%char
  ∧ beforeCallback (mkEvent before_the_obstacle EAST "X"%char
                      (FSM.destination before_the_obstacle EAST) false
                      (NewBenderSimulator 6)) = Returned stopped
  ∧ Cancelled stopped = true
  ∧ FSM.Event beforeCallback panicCB before_the_obstacle EAST (NewBenderSimulator 6)
    = Returned (None, before_the_obstacle, Args stopped)
  ∧ path (Args stopped) = [].
Proof.
  assert (G1 : inBounds (NewFSM cancelled_plan)
                 (FSM.destination (NewFSM cancelled_plan) EAST)) by (by vm_compute).
  assert (G2 : tileAt (NewFSM cancelled_plan)
                 (FSM.destination (NewFSM cancelled_plan) EAST) = Some " "%char)
    by (by vm_compute).
  assert (G3 : recorder_before (mkEvent (NewFSM cancelled_plan) EAST " "%char
                       (FSM.destination (NewFSM cancelled_plan) EAST) false
                       (newCallbackRecorderCancel 1)) = Returned cancelled_at_once)
    by (by vm_compute).
  assert (G4 : Cancelled cancelled_at_once = true) by reflexivity.
  assert (H1 : inBounds before_the_obstacle (FSM.destination before_the_obstacle EAST))
    by (by vm_compute).
  assert (H2 : tileAt before_the_obstacle (FSM.destination before_the_obstacle EAST)
               = Some "X"%char) by (by vm_compute).
  assert (H3 : beforeCallback (mkEvent before_the_obstacle EAST "X"%char
                      (FSM.destination before_the_obstacle EAST) false
                      (NewBenderSimulator 6)) = Returned stopped) by (by vm_compute).
  assert (H4 : Cancelled stopped = true) by reflexivity.
  destruct (C1_cancelled_move (NewFSM cancelled_plan) EAST " "%char G1 G2)
    as (Hany & _ & Hrec).
  destruct (Hany callbackRecorderCancel recorder_before recorder_enter
              (newCallbackRecorderCancel 1) cancelled_at_once G3 G4)
    as (_ & Hpanic & _).
  destruct (Hrec recorder_enter (newCallbackRecorderCancel 1) cancelled_at_once G3 G4)
    as (Hev & Hstack).
  destruct (C1_cancelled_move before_the_obstacle EAST "X"%char H1 H2)
    as (_ & Hpol & _).
  destruct (Hpol panicCB (NewBenderSimulator 6) stopped H3 H4) as (Hev' & Hpath & _).
  split; [exact G1|]. split; [exact G2|]. split; [exact G3|]. split; [exact G4|].
  split; [exact Hev|]. split; [exact Hpanic|]. split; [reflexivity|].
  split; [exact Hstack|].
  split; [exact H1|]. split; [exact H2|]. split; [exact H3|]. split; [exact H4|].
  split; [exact Hev' | exact Hpath].
Defined.

(** ** The machine: where a transition lands *)

(** C5.  On a rectangular grid whose dimensions are Go integers, from a
    position strictly inside the bounds, each of the four directions
    computes as destination the neighbour at its unit offset: south
    [(x, y+1)], north [(x, y-1)], east [(x+1, y)], west [(x-1, y)].  That
    neighbour is in bounds and has a tile, the event handed to the before
    callback carries that tile and those coordinates, and when the before
    callback returns without cancelling, the position is set to exactly
    that neighbour: the enter callback runs on the machine with [curr] equal
    to it, and [Event] returns [nil] with what the enter callback leaves. *)
Theorem C5_transition_neighbour {A} (beforeCB enterCB : Callback A) (f : FSM)
    (d : string) (dx dy : Z) (args : A) :
  rectangular f →
  width f <= int_max →
  height f <= int_max →
  (d, dx, dy) ∈ [(SOUTH, 0, 1); (NORTH, 0, -1); (EAST, 1, 0); (WEST, -1, 0)] →
  strictlyInside f (curr f) →
  FSM.destination f d = mkPair (x (curr f) + dx) (y (curr f) + dy)
  ∧ inBounds f (FSM.destination f d)
  ∧ ∃ tile : ascii,
      tileAt f (FSM.destination f d) = Some tile
      ∧ ∀ e1 : Event A,
          beforeCB (mkEvent f d tile (FSM.destination f d) false args) = Returned e1 →
          Cancelled e1 = false →
          curr (FSM.SetState (FSM.destination f d) (evFSM e1))
          = mkPair (x (curr f) + dx) (y (curr f) + dy)
          ∧ FSM.Event beforeCB enterCB f d args
            = (e2 ← enterCB (set_evFSM (FSM.SetState (FSM.destination f d) (evFSM e1)) e1);
               Returned (None, evFSM e2, Args e2)).
Proof.
  intros Hrect Hw Hh Hd [Hx Hy].
  assert (Hdst : FSM.destination f d = mkPair (x (curr f) + dx) (y (curr f) + dy)).
  { unfold FSM.destination, int_max in *.
    rewrite !elem_of_cons in Hd.
    destruct Hd as [[= -> -> ->] | [[= -> -> ->] | [[= -> -> ->] | [[= -> -> ->] | Hd]]]];
      [| | | | by apply elem_of_nil in Hd].
    all: cbn [bool_decide]; rewrite ?Z.add_0_r.
    - rewrite bool_decide_eq_true_2 by done.
      by rewrite int_add_small by (unfold is_int, int_min, int_max; lia).
    - rewrite bool_decide_eq_false_2 by done.
      rewrite bool_decide_eq_true_2 by done.
      rewrite int_sub_small by (unfold is_int, int_min, int_max; lia).
      by replace (y (curr f) + -1) with (y (curr f) - 1) by lia.
    - rewrite !(bool_decide_eq_false_2 (EAST = _)) by done.
      rewrite bool_decide_eq_true_2 by done.
      by rewrite int_add_small by (unfold is_int, int_min, int_max; lia).
    - rewrite !(bool_decide_eq_false_2 (WEST = _)) by done.
      rewrite bool_decide_eq_true_2 by done.
      rewrite int_sub_small by (unfold is_int, int_min, int_max; lia).
      by replace (x (curr f) + -1) with (x (curr f) - 1) by lia. }
  assert (Hin : inBounds f (FSM.destination f d)).
  { rewrite Hdst. unfold inBounds. cbn [x y].
    rewrite !elem_of_cons in Hd.
    destruct Hd as [[= -> -> ->] | [[= -> -> ->] | [[= -> -> ->] | [[= -> -> ->] | Hd]]]];
      [| | | | by apply elem_of_nil in Hd]; lia. }
  split; [exact Hdst|]. split; [exact Hin|].
  destruct (rectangular_tileAt f _ Hrect Hin) as [tile Htile].
  exists tile. split; [exact Htile|].
  intros e1 Hbefore Hcancel. split.
  - by rewrite Hdst.
  - by apply (Event_entered _ _ _ _ _ tile).
Qed.

Lemma C5_transition_neighbour_witness :
  rectangular at_start
  ∧ width at_start <= int_max
  ∧ height at_start <= int_max
  ∧ (EAST, 1, 0) ∈ [(SOUTH, 0, 1); (NORTH, 0, -1); (EAST, 1, 0); (WEST, -1, 0)]
  ∧ strictlyInside at_start (curr at_start)
  ∧ FSM.destination at_start EAST = mkPair 3 2
  ∧ FSM.Event idleCB idleCB at_start EAST ()
    = Returned (None, FSM.SetState (mkPair 3 2) at_start, ()).
Proof.
  assert (H1 : rectangular at_start) by (repeat constructor).
  assert (H2 : width at_start <= int_max) by (by vm_compute).
  assert (H3 : height at_start <= int_max) by (by vm_compute).
  assert (H4 : (EAST, 1, 0) ∈ [(SOUTH, 0, 1); (NORTH, 0, -1); (EAST, 1, 0); (WEST, -1, 0)])
    by (repeat constructor).
  assert (H5 : strictlyInside at_start (curr at_start)) by (by vm_compute).
  split; [exact H1|]. split; [exact H2|]. split; [exact H3|]. split; [exact H4|].
  split; [exact H5|].
  destruct (C5_transition_neighbour idleCB idleCB at_start EAST 1 0 () H1 H2 H3 H4 H5)
    as (Hdst & _ & tile & Htile & Hev).
  split; [exact Hdst|].
  destruct (Hev (mkEvent at_start EAST tile (FSM.destination at_start EAST) false ())
              eq_refl eq_refl) as (_ & ->).
  rewrite Hdst. reflexivity.
Defined.

(** ** The machine: events that are no direction *)

(** C8.  An event that is none of the four directions has destination
    [(0,0)], wherever the machine is.  On a grid that has a tile there this
    is in bounds, so [Event] returns no error: it builds the event for the
    tile at [(0,0)] and runs the callbacks on it (the before callback, and
    unless that cancels, the enter callback with the position set to
    [(0,0)]). *)
Theorem C8_unknown_event_goes_to_origin {A} (beforeCB enterCB : Callback A) (f : FSM)
    (evt : string) (args : A) (tile : ascii) :
  evt ∉ [SOUTH; NORTH; EAST; WEST] →
  tileAt f (mkPair 0 0) = Some tile →
  FSM.destination f evt = mkPair 0 0
  ∧ inBounds f (mkPair 0 0)
  ∧ FSM.Event beforeCB enterCB f evt args
    = callbacks beforeCB enterCB (mkPair 0 0) (mkEvent f evt tile (mkPair 0 0) false args)
  ∧ ∀ (msg : string) (f' : FSM) (args' : A),
      FSM.Event beforeCB enterCB f evt args ≠ Returned (Some msg, f', args').
Proof.
  intros Hevt Htile.
  assert (Hdst : FSM.destination f evt = mkPair 0 0).
  { unfold FSM.destination.
    rewrite !not_elem_of_cons in Hevt. destruct Hevt as (? & ? & ? & ? & _).
    by rewrite !bool_decide_eq_false_2 by done. }
  assert (Hin : inBounds f (mkPair 0 0)).
  { unfold tileAt in Htile. cbn [x y] in Htile.
    rewrite bool_decide_eq_true_2 in Htile by lia.
    unfold inBounds, width, height, len. cbn [x y].
    destruct (states f) as [|row0 rows]; [done|].
    cbn in Htile. destruct row0; [done|]. cbn [length]. lia. }
  assert (Hev : FSM.Event beforeCB enterCB f evt args
    = callbacks beforeCB enterCB (mkPair 0 0) (mkEvent f evt tile (mkPair 0 0) false args)).
  { rewrite <- Hdst. apply Event_inBounds; by rewrite Hdst. }
  split; [exact Hdst|]. split; [exact Hin|]. split; [exact Hev|].
  intros msg f' args'. rewrite Hev. apply callbacks_no_error.
Qed.

Lemma C8_unknown_event_goes_to_origin_witness :
  ("UP" ∉ [SOUTH; NORTH; EAST; WEST])
  ∧ tileAt (NewFSM test_plan) (mkPair 0 0) = Some "#"%char
  ∧ FSM.Event beforeCallback enterCallback (NewFSM test_plan) "UP" (NewBenderSimulator 6)
    = Returned (None, NewFSM test_plan,
                NextDirection (set_boom true (NewBenderSimulator 6))).
Proof.
  assert (H1 : "UP" ∉ [SOUTH; NORTH; EAST; WEST]).
  { rewrite !not_elem_of_cons. repeat split; try discriminate. apply not_elem_of_nil. }
  assert (H2 : tileAt (NewFSM test_plan) (mkPair 0 0) = Some "#"%char) by reflexivity.
  split; [exact H1|]. split; [exact H2|].
  destruct (C8_unknown_event_goes_to_origin beforeCallback enterCallback
              (NewFSM test_plan) "UP" (NewBenderSimulator 6) "#"%char H1 H2)
    as (_ & _ & -> & _).
  by vm_compute.
Defined.

(** ** The policy on a tile that is neither an obstacle nor a teleport *)

(** For the callbacks of the policy, a move onto an in-bounds tile other
    than ['#'], ['X'] and ['T'] is committed: [Event] returns [nil] and the
    position of the machine is the destination. *)
Lemma Event_policy_enters (f : FSM) (evt : string) (b : BenderSimulator) (tile : ascii) :
  inBounds f (FSM.destination f evt) →
  tileAt f (FSM.destination f evt) = Some tile →
  tile ≠ "#"%char → tile ≠ "X"%char → tile ≠ "T"%char →
  ∃ b', FSM.Event beforeCallback enterCallback f evt b
        = Returned (None, FSM.SetState (FSM.destination f evt) f, b')
        ∧ path b' = path b ++ [evt].
Proof.
  intros Hin Htile Hwall Hx Ht.
  assert (Hbefore : beforeCallback (mkEvent f evt tile (FSM.destination f evt) false b)
                    = Returned (mkEvent f evt tile (FSM.destination f evt) false b)).
  { unfold beforeCallback. cbn [Dst]. by rewrite !bool_decide_eq_false_2 by done. }
  rewrite (Event_entered _ _ _ _ _ tile _ Hin Htile Hbefore eq_refl).
  rewrite enterCallback_not_teleport by done.
  event_simpl. eexists. split; [reflexivity|].
  rewrite Remember_path, tile_effect_path. by destruct (Hurts b).
Qed.

(** ** The scenarios of the tests and of [main] *)

Example TestBenderSimulator_passes :
  TestBenderSimulator
  = Returned ([SOUTH; SOUTH; EAST; SOUTH; NORTH; SOUTH; SOUTH; WEST; EAST; SOUTH],
              true, [SOUTH; SOUTH; EAST; EAST], false, true).
Proof. by vm_compute. Qed.

Example TestFSM_cancelled :
  ∃ f c, events recorder_before recorder_enter [EAST; EAST; NORTH; WEST]
           (NewFSM cancelled_plan) (newCallbackRecorderCancel 2) = Returned (f, c)
         ∧ bStack c = [(EAST, " "%char, mkPair 2 2); (EAST, "X"%char, mkPair 3 2);
                       (NORTH, " "%char, mkPair 2 1); (WEST, "$"%char, mkPair 1 1)]
         ∧ eStack c = [(EAST, " "%char, mkPair 2 2); (NORTH, " "%char, mkPair 2 1);
                       (WEST, "$"%char, mkPair 1 1)]
         ∧ curr f = mkPair 1 1.
Proof. eexists. eexists. split; [by vm_compute|]. by repeat split. Qed.

Example TestFSM_nominal :
  ∃ f c, events recorder_before recorder_enter [EAST; NORTH; WEST; WEST]
           (NewFSM test_plan) (newCallbackRecorderCancel 0) = Returned (f, c)
         ∧ bStack c = [(EAST, "B"%char, mkPair 3 2); (NORTH, "X"%char, mkPair 3 1);
                       (WEST, " "%char, mkPair 2 1); (WEST, "$"%char, mkPair 1 1)]
         ∧ eStack c = bStack c.
Proof. eexists. eexists. split; [by vm_compute|]. by repeat split. Qed.

Example TestCalcNumStates :
  calcNumStates ["#####"; "#   #"; "#   #"; "#   #"; "#####"] = Returned 9
  ∧ calcNumStates ["#####"; "#   #"; "#   #"; "#####"] = Returned 6.
Proof. by vm_compute. Qed.

Example main_reaches_the_booth :
  ∃ m bender, drive 100 (NewFSM main_plan) (NewBenderSimulator 36)
              = Returned (None, m, bender)
    ∧ Done bender = true
    ∧ ShowPath bender
      = [SOUTH; SOUTH; EAST; EAST; EAST; NORTH; NORTH; NORTH; NORTH; NORTH].
Proof. eexists. eexists. split; [by vm_compute|]. by vm_compute. Qed.

(** * Further properties of the simulator *)

(** ** Breaker mode *)

(** X1.  [InvertBreaker] negates the breaker mode and touches nothing else:
    two consecutive calls give back the simulator they started from. *)
Theorem InvertBreaker_involutive (b : BenderSimulator) :
  Breaker (InvertBreaker b) = negb (Breaker b)
  ∧ InvertBreaker b = set_breaker (negb (breaker b)) b
  ∧ InvertBreaker (InvertBreaker b) = b.
Proof.
  destruct b as [d br bo rd ip cd ps pm pa ca lc mx].
  unfold InvertBreaker, Breaker. by destruct br.
Qed.

(** ** Turning the priorities over *)

(** X2.  On a slice whose length is a Go integer [turnoverPriorities]
    returns; the ordering it leaves is the reverse of the one it found, a
    permutation of it of the same length, the pending flag is off, and a
    second call restores the ordering. *)
Theorem turnoverPriorities_twice (b : BenderSimulator) :
  len (priorities b) <= int_max →
  ∃ b1 b2 : BenderSimulator,
    turnoverPriorities b = Returned b1
    ∧ turnoverPriorities b1 = Returned b2
    ∧ priorities b1 = rev (priorities b)
    ∧ priorities b1 ≡ₚ priorities b
    ∧ length (priorities b1) = length (priorities b)
    ∧ invertPrio b1 = false
    ∧ priorities b2 = priorities b
    ∧ b2 = set_invertPrio false b.
Proof.
  intros Hmax.
  assert (Hmax' : len (rev (priorities b)) <= int_max).
  { unfold len in *. by rewrite length_rev. }
  eexists. eexists.
  split; [by apply turnoverPriorities_spec|].
  split; [by apply turnoverPriorities_spec|].
  destruct b as [d br bo rd ip cd ps pm pa ca lc mx].
  cbn [priorities invertPrio set_invertPrio set_priorities
       done breaker boom resetDir currDir pathModifier path cache loopCnt maxNumStates].
  rewrite rev_involutive.
  repeat split; try reflexivity.
  - symmetry. apply Permutation_rev.
  - apply length_rev.
Qed.

Lemma turnoverPriorities_twice_witness :
  len (priorities (NewBenderSimulator 9)) <= int_max
  ∧ ∃ b1 b2 : BenderSimulator,
      turnoverPriorities (NewBenderSimulator 9) = Returned b1
      ∧ turnoverPriorities b1 = Returned b2
      ∧ priorities b1 = [WEST; NORTH; EAST; SOUTH]
      ∧ priorities b2 = [SOUTH; EAST; NORTH; WEST].
Proof.
  assert (H : len (priorities (NewBenderSimulator 9)) <= int_max) by (by vm_compute).
  split; [exact H|].
  destruct (turnoverPriorities_twice (NewBenderSimulator 9) H)
    as (b1 & b2 & H1 & H2 & Hrev & _ & _ & _ & Hback & _).
  exists b1, b2. repeat split; assumption.
Defined.

(** ** The override direction *)

(** X3.  A non-empty override set by [PathModifier] is what [Direction]
    returns, whatever the priorities and the selection are, and it stays in
    force across [NextDirection], [Remember], [BackOnTrack],
    [InvertPriorities], [InvertBreaker] and [Reached].  [Boom] clears it:
    after a hit [Direction] reads the priorities again.  The empty string is
    no override. *)
Theorem PathModifier_overrides (b : BenderSimulator) (dir : string) :
  dir ≠ "" →
  Direction (PathModifier dir b) = Returned dir
  ∧ Direction (NextDirection (PathModifier dir b)) = Returned dir
  ∧ Direction (BackOnTrack (PathModifier dir b)) = Returned dir
  ∧ Direction (InvertPriorities (PathModifier dir b)) = Returned dir
  ∧ Direction (InvertBreaker (PathModifier dir b)) = Returned dir
  ∧ Direction (Reached (PathModifier dir b)) = Returned dir
  ∧ (∀ d state, Direction (Remember d state (PathModifier dir b)) = Returned dir)
  ∧ (∀ b', Boom (PathModifier dir b) = Returned b' →
           pathModifier b' = ""
           ∧ Direction b' = slice_get (priorities b') (currDir b))
  ∧ Direction (PathModifier "" b) = slice_get (priorities b) (currDir b).
Proof.
  intros Hdir.
  assert (Hov : ∀ b0, pathModifier b0 = dir → Direction b0 = Returned dir).
  { intros b0 Hb0. unfold Direction. rewrite Hb0. by rewrite bool_decide_eq_true_2. }
  split_and!.
  - by apply Hov.
  - apply Hov, NextDirection_frame.
  - by apply Hov.
  - apply Hov. unfold InvertPriorities. by destruct (invertPrio _).
  - apply Hov. unfold InvertBreaker. by destruct (breaker _).
  - by apply Hov.
  - intros d state. apply Hov. by rewrite (proj1 (proj2 (proj2 (proj2 (proj2 (proj2
      (proj2 (proj2 (Remember_frame d state _))))))))).
  - intros b' HB.
    apply Boom_frame in HB as (_ & _ & Hcur & _ & _ & _ & _ & _ & Hpm).
    split; [done|].
    unfold Direction. rewrite Hpm, Hcur. by rewrite bool_decide_eq_false_2 by (by intros []).
  - unfold Direction. cbn. by rewrite bool_decide_eq_false_2 by (by intros []).
Qed.

Lemma PathModifier_overrides_witness :
  NORTH ≠ ""
  ∧ Direction (NextDirection (PathModifier NORTH (NewBenderSimulator 9))) = Returned NORTH.
Proof.
  assert (H : NORTH ≠ "") by discriminate.
  split; [exact H|].
  exact (proj1 (proj2 (PathModifier_overrides (NewBenderSimulator 9) NORTH H))).
Defined.

(** ** What the simulator keeps steady *)

Lemma steady_len (b : BenderSimulator) : steady b → len (priorities b) = 4.
Proof. intros (Hp & _). unfold len. by rewrite (Permutation_length Hp). Qed.

Lemma steady_NextDirection (b : BenderSimulator) : steady b → steady (NextDirection b).
Proof.
  intros Hb. pose proof (steady_len b Hb) as Hlen.
  destruct Hb as (Hp & Hc & Hm).
  unfold NextDirection, steady.
  destruct (resetDir b); cbn; [split_and!; (done || lia)|].
  rewrite int_add_small by (unfold is_int, int_min, int_max; lia).
  case_bool_decide; cbn; split_and!; (done || lia).
Qed.

Lemma steady_Boom (b : BenderSimulator) :
  steady b → ∃ b', Boom b = Returned b' ∧ steady b'.
Proof.
  intros Hb. pose proof (steady_len b Hb) as Hlen.
  destruct Hb as (Hp & Hc & Hm).
  eexists. split.
  - apply Boom_spec. rewrite Hlen. by vm_compute.
  - unfold steady.
    destruct (invertPrio b); cbn; split_and!;
      try done; try lia; try apply list_elem_of_here.
    by rewrite <- Permutation_rev.
Qed.

Lemma steady_Remember (dir state : string) (b : BenderSimulator) :
  steady b → steady (Remember dir state b).
Proof.
  intros (Hp & Hc & Hm). unfold steady.
  destruct (Remember_frame dir state b) as (_ & _ & _ & _ & _ & -> & -> & -> & _).
  done.
Qed.

Lemma steady_tile_effect (tile : ascii) (b : BenderSimulator) :
  steady b → steady (tile_effect tile b).
Proof.
  intros (Hp & Hc & Hm).
  unfold tile_effect, steady, InvertBreaker, InvertPriorities, PathModifier, Reached.
  repeat case_bool_decide; cbn;
    try destruct (breaker b); try destruct (invertPrio b); cbn;
    split_and!; try done; try lia; repeat constructor.
Qed.

(** X4.  The shape of the simulator is an invariant: a new simulator has the
    four directions as priorities, a selection index in [0..3] and no
    override, and every operation keeps the priorities a permutation of the
    four directions, the index in range and the override empty or a
    direction ([PathModifier] when it is given a direction).  On such a
    simulator [Boom] never panics. *)
Theorem steady_invariant (n : Z) (b : BenderSimulator) :
  steady (NewBenderSimulator n)
  ∧ (steady b →
     steady (NextDirection b)
     ∧ steady (BackOnTrack b)
     ∧ steady (InvertPriorities b)
     ∧ steady (InvertBreaker b)
     ∧ steady (Reached b)
     ∧ (∀ dir state, steady (Remember dir state b))
     ∧ (∀ dir, dir ∈ [SOUTH; NORTH; EAST; WEST] → steady (PathModifier dir b))
     ∧ (∃ b', Boom b = Returned b' ∧ steady b')).
Proof.
  split.
  - unfold steady. cbn. split_and!; [done | lia | lia | apply list_elem_of_here].
  - intros Hb. split_and!.
    + by apply steady_NextDirection.
    + exact Hb.
    + change (InvertPriorities b) with (tile_effect "I" b). by apply steady_tile_effect.
    + change (InvertBreaker b) with (tile_effect "B" b). by apply steady_tile_effect.
    + change (Reached b) with (tile_effect "$" b). by apply steady_tile_effect.
    + intros dir state. by apply steady_Remember.
    + intros dir Hdir. destruct Hb as (Hp & Hc & Hm). unfold steady. cbn.
      split_and!; [done | lia | lia |]. by apply list_elem_of_further.
    + by apply steady_Boom.
Qed.

Lemma steady_invariant_witness :
  steady (NewBenderSimulator 9)
  ∧ steady (NextDirection (NewBenderSimulator 9))
  ∧ ∃ b', Boom (NewBenderSimulator 9) = Returned b' ∧ steady b'.
Proof.
  destruct (steady_invariant 9 (NewBenderSimulator 9)) as (H0 & H).
  split; [exact H0|].
  destruct (H H0) as (H1 & _ & _ & _ & _ & _ & _ & H2).
  split; [exact H1 | exact H2].
Defined.

(** X5.  On a steady simulator [Direction] never panics and returns one of
    the four directions: the override when there is one, the selected
    priority otherwise.  So the driver never asks the machine for an event
    that is no direction. *)
Theorem Direction_steady (b : BenderSimulator) :
  steady b →
  ∃ dir, Direction b = Returned dir
         ∧ dir ∈ [SOUTH; NORTH; EAST; WEST]
         ∧ (pathModifier b ≠ "" → dir = pathModifier b)
         ∧ (pathModifier b = "" → priorities b !! Z.to_nat (currDir b) = Some dir).
Proof.
  intros Hb. pose proof (steady_len b Hb) as Hlen.
  destruct Hb as (Hp & Hc & Hm). unfold Direction.
  case_bool_decide as Hpm.
  - exists (pathModifier b). split_and!; try done.
    rewrite elem_of_cons in Hm. by destruct Hm.
  - destruct (lookup_lt_is_Some_2 (priorities b) (Z.to_nat (currDir b))) as [dir Hdir].
    { unfold len in Hlen. lia. }
    exists dir. split_and!; try done.
    + rewrite <- (Z2Nat.id (currDir b)) by lia. by apply slice_get_Some.
    + apply list_elem_of_lookup_2 in Hdir. rewrite Hp in Hdir.
      rewrite !elem_of_cons in Hdir. rewrite !elem_of_cons. tauto.
Qed.

Lemma Direction_steady_witness :
  steady turned_over ∧ Direction turned_over = Returned SOUTH.
Proof.
  assert (H : steady turned_over).
  { unfold steady. cbn. split_and!; [done | lia | lia | apply list_elem_of_here]. }
  split; [exact H|].
  destruct (Direction_steady turned_over H) as (dir & Hd & _ & _ & Hsel).
  rewrite Hd. f_equal. specialize (Hsel eq_refl). by injection Hsel.
Defined.

(** ** Obstacle hits *)

(** X6.  A second obstacle hit in a row changes nothing: once [Boom] has
    returned, the inversion is no longer pending, so [Boom] on its result
    returns that result.  A pending inversion is applied once, however many
    obstacles follow. *)
Theorem Boom_idempotent (b b1 : BenderSimulator) :
  Boom b = Returned b1 → Boom b1 = Returned b1 ∧ invertPrio b1 = false ∧ Hurts b1 = true.
Proof.
  unfold Boom, turnoverPriorities, Hurts.
  destruct b as [d br bo rd ip cd ps pm pa ca lc mx].
  cbn [invertPrio set_pathModifier set_boom priorities].
  destruct ip.
  - destruct (turnover_loop _ _ _ _) as [ps'|msg]; cbn [mbind outcome_bind]; [|done].
    by intros [= <-].
  - by intros [= <-].
Qed.

Lemma Boom_idempotent_witness :
  ∃ b1, Boom turned_over = Returned b1
        ∧ Boom b1 = Returned b1
        ∧ priorities b1 = [WEST; NORTH; EAST; SOUTH].
Proof.
  eexists. split; [by vm_compute|].
  split; [|reflexivity].
  refine (proj1 (Boom_idempotent turned_over _ _)). by vm_compute.
Defined.

(** ** The path and the cache *)

Lemma RememberAll_app (dirs1 dirs2 : list string) (state : string) (b : BenderSimulator) :
  RememberAll (dirs1 ++ dirs2) state b = RememberAll dirs2 state (RememberAll dirs1 state b).
Proof. apply fold_left_app. Qed.

(** X7.  The path is append-only: [Remember] appends its direction, whether
    the state is novel or not, and recording a sequence of directions appends
    that sequence in order.  [ShowPath] returns this path unless the run has
    looped, and then the single entry [LOOP]. *)
Theorem path_append_only (b : BenderSimulator) (state : string) (dirs : list string) :
  (∀ dir s, path (Remember dir s b) = path b ++ [dir])
  ∧ path (RememberAll dirs state b) = path b ++ dirs
  ∧ ShowPath (RememberAll dirs state b)
    = (if Loop (RememberAll dirs state b) then [LOOP] else path b ++ dirs).
Proof.
  assert (Hall : ∀ ds b0, path (RememberAll ds state b0) = path b0 ++ ds).
  { induction ds as [|d ds IH]; intros b0.
    - cbn. by rewrite app_nil_r.
    - change (RememberAll (d :: ds) state b0)
        with (RememberAll ds state (Remember d state b0)).
      rewrite IH, Remember_path. by rewrite <- app_assoc. }
  split_and!.
  - intros dir s. apply Remember_path.
  - apply Hall.
  - unfold ShowPath. by rewrite Hall.
Qed.

Lemma Remember_cache_self (dir state : string) (b : BenderSimulator) :
  is_Some (cache (Remember dir state b) !! state).
Proof.
  destruct (cache b !! state) as [v|] eqn:Hc.
  - destruct (Remember_repeat dir state b) as (_ & ->); by eexists.
  - destruct (Remember_novel dir state b Hc) as (_ & ->).
    rewrite lookup_insert_eq. by eexists.
Qed.

(** X8.  The cache only grows: after [Remember] the recorded state is in the
    cache, every state that was in it still is, and no other state has
    entered. *)
Theorem cache_only_grows (b : BenderSimulator) (dir state : string) :
  is_Some (cache (Remember dir state b) !! state)
  ∧ (∀ s, is_Some (cache b !! s) → is_Some (cache (Remember dir state b) !! s))
  ∧ (∀ s, s ≠ state → cache (Remember dir state b) !! s = cache b !! s)
  ∧ dom (cache (Remember dir state b)) = {[state]} ∪ dom (cache b).
Proof.
  destruct (cache b !! state) as [v|] eqn:Hc.
  - destruct (Remember_repeat dir state b) as (_ & Hca); [by eexists|].
    rewrite Hca. split_and!; try done.
    apply elem_of_dom_2 in Hc. symmetry. apply subseteq_union_1_L.
    by apply singleton_subseteq_l.
  - destruct (Remember_novel dir state b Hc) as (_ & Hca).
    rewrite Hca. split_and!.
    + rewrite lookup_insert_eq. by eexists.
    + intros s Hs. destruct (decide (state = s)) as [->|Hne].
      * rewrite lookup_insert_eq. by eexists.
      * by rewrite lookup_insert_ne.
    + intros s Hne. by rewrite lookup_insert_ne.
    + by rewrite dom_insert_L.
Qed.

(** * Further properties of the machine *)

(** ** Reading and writing tiles *)

Lemma slice_get_Returned {T} (l : list T) (i : Z) (v : T) :
  slice_get l i = Returned v → 0 <= i < len l ∧ l !! Z.to_nat i = Some v.
Proof.
  unfold slice_get. case_bool_decide as Hi; [|done].
  destruct (l !! Z.to_nat i) as [w|]; [|done]. by intros [= ->].
Qed.

Lemma slice_get_Panicked {T} (l : list T) (i : Z) (msg : string) :
  slice_get l i = Panicked msg → msg = "index out of range".
Proof.
  unfold slice_get. case_bool_decide; [|by intros [= <-]].
  destruct (l !! Z.to_nat i); [done | by intros [= <-]].
Qed.

Lemma slice_get_is_Some {T} (l : list T) (i : Z) (v : T) :
  0 <= i → l !! Z.to_nat i = Some v → slice_get l i = Returned v.
Proof.
  intros Hi Hl. rewrite <- (Z2Nat.id i) by done. by apply slice_get_Some.
Qed.

Lemma slice_set_Returned {T} (l l' : list T) (i : Z) (v : T) :
  slice_set l i v = Returned l' → 0 <= i < len l ∧ l' = <[Z.to_nat i := v]> l.
Proof. unfold slice_set. case_bool_decide as Hi; [|done]. by intros [= <-]. Qed.

Lemma tileAt_states (f g : FSM) (p : Pair) :
  states f = states g → tileAt f p = tileAt g p.
Proof. unfold tileAt. by intros ->. Qed.

Lemma tileAt_Some (f : FSM) (p : Pair) (tile : ascii) :
  tileAt f p = Some tile →
  0 <= x p ∧ 0 <= y p
  ∧ ∃ row, states f !! Z.to_nat (y p) = Some row ∧ row !! Z.to_nat (x p) = Some tile.
Proof.
  unfold tileAt. case_bool_decide as Hpos; [|done].
  destruct (states f !! Z.to_nat (y p)) as [row|]; [|done].
  cbn [mbind option_bind]. intros Htile. split_and!; [lia | lia |]. by exists row.
Qed.

Lemma Pair_eq (p q : Pair) : x p = x q → y p = y q → p = q.
Proof. destruct p, q. cbn. by intros -> ->. Qed.

(** Writing one tile: the tile is read back, every other position reads as
    before. *)
Lemma tileAt_insert (f g : FSM) (d p : Pair) (row : list ascii) (tile : ascii) :
  0 <= x d → 0 <= y d →
  states f !! Z.to_nat (y d) = Some row →
  (Z.to_nat (x d) < length row)%nat →
  states g = <[Z.to_nat (y d) := <[Z.to_nat (x d) := tile]> row]> (states f) →
  tileAt g p = if decide (p = d) then Some tile else tileAt f p.
Proof.
  intros Hx Hy Hrow Hlen Hg. unfold tileAt. rewrite Hg.
  pose proof (lookup_lt_Some _ _ _ Hrow) as Hylen.
  destruct (decide (p = d)) as [->|Hne].
  - rewrite bool_decide_eq_true_2 by lia.
    rewrite list_lookup_insert_eq by done. cbn [mbind option_bind].
    by rewrite list_lookup_insert_eq.
  - case_bool_decide as Hpos; [|done].
    destruct (decide (y p = y d)) as [Hyeq|Hyne].
    + rewrite Hyeq, list_lookup_insert_eq, Hrow by done. cbn [mbind option_bind].
      rewrite list_lookup_insert_ne; [done|].
      intros Hxeq. apply Hne, Pair_eq; lia.
    + rewrite list_lookup_insert_ne by lia. done.
Qed.

Lemma ChangeDst_Returned {A} (tile : ascii) (e e' : Event A) :
  ChangeDst tile e = Returned e' →
  ∃ row,
    0 <= y (dstC e) ∧ 0 <= x (dstC e)
    ∧ states (evFSM e) !! Z.to_nat (y (dstC e)) = Some row
    ∧ (Z.to_nat (x (dstC e)) < length row)%nat
    ∧ e' = set_evFSM
             (mkFSM (<[Z.to_nat (y (dstC e)) := <[Z.to_nat (x (dstC e)) := tile]> row]>
                       (states (evFSM e)))
                    (curr (evFSM e)) (teleports (evFSM e))) e.
Proof.
  unfold ChangeDst. cbv zeta.
  destruct (slice_get _ _) as [row|] eqn:Hrow; cbn [mbind outcome_bind]; [|done].
  destruct (slice_set row _ _) as [row'|] eqn:Hrow'; cbn [mbind outcome_bind]; [|done].
  destruct (slice_set (states _) _ _) as [sts|] eqn:Hsts; cbn [mbind outcome_bind]; [|done].
  intros [= <-].
  apply slice_get_Returned in Hrow as (Hy & Hrow).
  apply slice_set_Returned in Hrow' as (Hx & ->).
  apply slice_set_Returned in Hsts as (_ & ->).
  exists row. split_and!; try done; try lia. unfold len in Hx. lia.
Qed.

Lemma width_insert (f g : FSM) (i j : nat) (row : list ascii) (tile : ascii) :
  states f !! i = Some row →
  states g = <[i := <[j := tile]> row]> (states f) →
  width g = width f ∧ height g = height f ∧ (rectangular f → rectangular g).
Proof.
  intros Hrow Hg. unfold width, height, rectangular, width. rewrite Hg.
  assert (Hw : match <[i := <[j := tile]> row]> (states f) with
               | [] => 0 | row0 :: _ => len row0 end
               = match states f with [] => 0 | row0 :: _ => len row0 end).
  { destruct (states f) as [|row0 rows]; [done|].
    destruct i; cbn in *; [|done]. injection Hrow as ->.
    unfold len. by rewrite length_insert. }
  rewrite Hw. split_and!; [done | unfold len; by rewrite length_insert |].
  rewrite !Forall_lookup. intros Hrect k r Hk.
  destruct (decide (k = i)) as [->|Hne].
  - rewrite list_lookup_insert_eq in Hk by (by eapply lookup_lt_Some).
    injection Hk as <-. unfold len. rewrite length_insert. by apply (Hrect i).
  - rewrite list_lookup_insert_ne in Hk by done. by apply (Hrect k).
Qed.

Lemma ChangeDst_spec {A} (tile t0 : ascii) (e : Event A) :
  tileAt (evFSM e) (dstC e) = Some t0 →
  ∃ e', ChangeDst tile e = Returned e'
        ∧ tileAt (evFSM e') (dstC e) = Some tile
        ∧ (∀ p, p ≠ dstC e → tileAt (evFSM e') p = tileAt (evFSM e) p)
        ∧ width (evFSM e') = width (evFSM e)
        ∧ height (evFSM e') = height (evFSM e)
        ∧ curr (evFSM e') = curr (evFSM e)
        ∧ teleports (evFSM e') = teleports (evFSM e)
        ∧ e' = set_evFSM (evFSM e') e.
Proof.
  intros Ht0.
  destruct (tileAt_Some _ _ _ Ht0) as (Hx & Hy & row & Hrow & Hcol).
  pose proof (lookup_lt_Some _ _ _ Hrow) as Hylen.
  pose proof (lookup_lt_Some _ _ _ Hcol) as Hxlen.
  eexists. split.
  { unfold ChangeDst. cbv zeta.
    rewrite (slice_get_is_Some _ _ row) by done. cbn [mbind outcome_bind].
    unfold slice_set, len.
    rewrite bool_decide_eq_true_2 by lia. cbn [mbind outcome_bind].
    rewrite bool_decide_eq_true_2 by lia. cbn [mbind outcome_bind].
    reflexivity. }
  cbn [evFSM set_evFSM curr teleports].
  split_and!; try reflexivity.
  - rewrite (tileAt_insert (evFSM e) _ (dstC e) (dstC e) row tile) by done.
    by rewrite decide_True.
  - intros p Hp.
    rewrite (tileAt_insert (evFSM e) _ (dstC e) p row tile) by done.
    by rewrite decide_False.
  - by eapply width_insert.
  - by eapply width_insert.
Qed.

(** X9.  [ChangeDst] writes exactly one tile.  When the destination of the
    event addresses a tile of the grid, [ChangeDst] returns; that position
    then reads the new tile, every other position reads what it read before,
    the dimensions of the grid, the position of the machine and the
    teleports are unchanged, and so are the fields of the event: its [Dst]
    still holds the old tile.  When the destination addresses no tile,
    [ChangeDst] panics. *)
Theorem ChangeDst_writes_one_tile {A} (tile : ascii) (e : Event A) :
  (is_Some (tileAt (evFSM e) (dstC e)) →
   ∃ e', ChangeDst tile e = Returned e'
         ∧ tileAt (evFSM e') (dstC e) = Some tile
         ∧ (∀ p, p ≠ dstC e → tileAt (evFSM e') p = tileAt (evFSM e) p)
         ∧ width (evFSM e') = width (evFSM e)
         ∧ height (evFSM e') = height (evFSM e)
         ∧ curr (evFSM e') = curr (evFSM e)
         ∧ teleports (evFSM e') = teleports (evFSM e)
         ∧ Dst e' = Dst e ∧ Cancelled e' = Cancelled e ∧ Args e' = Args e
         ∧ evEvent e' = evEvent e ∧ dstC e' = dstC e)
  ∧ (tileAt (evFSM e) (dstC e) = None →
     ChangeDst tile e = Panicked "index out of range").
Proof.
  split.
  - intros [t0 Ht0].
    destruct (ChangeDst_spec tile t0 e Ht0)
      as (e' & He' & Hnew & Hold & Hw & Hh & Hc & Htp & Heq).
    exists e'. split_and!; try done; by rewrite Heq.
  - intros Hnone. unfold ChangeDst. cbv zeta.
    destruct (slice_get (states (evFSM e)) (y (dstC e))) as [row|msg] eqn:Hrow;
      cbn [mbind outcome_bind].
    + apply slice_get_Returned in Hrow as (Hy & Hrow).
      destruct (slice_set row (x (dstC e)) tile) as [row'|msg] eqn:Hrow';
        cbn [mbind outcome_bind].
      * exfalso. apply slice_set_Returned in Hrow' as (Hx & _).
        unfold tileAt in Hnone.
        rewrite bool_decide_eq_true_2, Hrow in Hnone by lia.
        cbn [mbind option_bind] in Hnone.
        apply lookup_ge_None in Hnone. unfold len in Hx. lia.
      * unfold slice_set in Hrow'. case_bool_decide; [done|]. by injection Hrow' as <-.
    + by apply slice_get_Panicked in Hrow as ->.
Qed.

Lemma ChangeDst_writes_one_tile_witness :
  is_Some (tileAt (evFSM stopped) (dstC stopped))
  ∧ ∃ e', ChangeDst " " stopped = Returned e'
          ∧ tileAt (evFSM e') (mkPair 3 2) = Some " "%char
          ∧ tileAt (evFSM e') (mkPair 1 1) = Some "$"%char.
Proof.
  assert (H : is_Some (tileAt (evFSM stopped) (dstC stopped))) by (by eexists).
  split; [exact H|].
  destruct (proj1 (ChangeDst_writes_one_tile " " stopped) H)
    as (e' & He' & Hnew & Hold & _).
  exists e'. split; [exact He'|]. split; [exact Hnew|].
  rewrite Hold by discriminate. reflexivity.
Defined.

(** ** Resolving a teleport from any coordinate *)

Lemma TeleportDst_two (f : FSM) (p q ps : Pair) :
  teleports f = [p; q] →
  FSM.TeleportDst f ps = Returned (if decide (ps = p) then q else p).
Proof.
  intros Htp. unfold FSM.TeleportDst. rewrite Htp.
  rewrite bool_decide_eq_false_2 by (unfold len; cbn; lia).
  change (slice_get [p; q] 0) with (Returned p).
  change (slice_get [p; q] 1) with (Returned q).
  cbn [mbind outcome_bind].
  destruct (decide (ps = p)) as [->|Hne].
  - by rewrite !bool_decide_eq_true_2.
  - destruct (bool_decide (x p = x ps)) eqn:Hx, (bool_decide (y p = y ps)) eqn:Hy;
      cbn [andb]; try reflexivity.
    apply bool_decide_eq_true_1 in Hx, Hy.
    exfalso. apply Hne. by apply Pair_eq.
Qed.

Lemma TeleportDst_Returned (f : FSM) (ps p : Pair) :
  FSM.TeleportDst f ps = Returned p → p ∈ teleports f ∧ length (teleports f) = 2%nat.
Proof.
  unfold FSM.TeleportDst. case_bool_decide as Hlen; [done|].
  assert (length (teleports f) = 2%nat) by (unfold len in Hlen; lia).
  destruct (slice_get (teleports f) 0) as [t0|] eqn:H0; cbn [mbind outcome_bind]; [|done].
  destruct (_ && _).
  - intros Hp. apply slice_get_Returned in Hp as (_ & Hp).
    split; [|done]. by apply list_elem_of_lookup_2 in Hp.
  - intros [= <-]. apply slice_get_Returned in H0 as (_ & Hp).
    split; [|done]. by apply list_elem_of_lookup_2 in Hp.
Qed.

(** X10.  With two teleport coordinates [TeleportDst] never fails, whatever
    coordinate it is asked about: it returns the second teleport for the
    first, and the first teleport for every other coordinate, a teleport or
    not.  What it returns is always one of the two teleports, and never the
    coordinate asked about unless the two teleports coincide. *)
Theorem TeleportDst_total (f : FSM) (p q ps : Pair) :
  teleports f = [p; q] →
  ∃ r, FSM.TeleportDst f ps = Returned r
       ∧ r = (if decide (ps = p) then q else p)
       ∧ r ∈ teleports f
       ∧ (p ≠ q → r ≠ ps).
Proof.
  intros Htp. eexists. split; [by apply TeleportDst_two|].
  split; [done|]. rewrite Htp. split.
  - destruct (decide (ps = p)); repeat constructor.
  - intros Hpq. destruct (decide (ps = p)) as [->|Hne]; congruence.
Qed.

Lemma TeleportDst_total_witness :
  teleports two_teleports = [mkPair 3 1; mkPair 4 2]
  ∧ FSM.TeleportDst two_teleports (mkPair 1 1) = Returned (mkPair 3 1).
Proof.
  assert (H : teleports two_teleports = [mkPair 3 1; mkPair 4 2]) by reflexivity.
  split; [exact H|].
  destruct (TeleportDst_total two_teleports _ _ (mkPair 1 1) H) as (r & -> & -> & _).
  reflexivity.
Defined.

(** ** The cases of a transition *)

Lemma unknown_state_Returned (f : FSM) (p : Pair) (oob : bool) :
  FSM.unknown_state f p = Returned oob →
  if oob then ¬ inBounds f p else inBounds f p.
Proof.
  unfold FSM.unknown_state, inBounds, width, height.
  case_bool_decide as Hx0; [intros [= <-]; lia|].
  destruct (slice_get (states f) 0) as [row0|] eqn:Hrow0; cbn [mbind outcome_bind]; [|done].
  apply slice_get_Returned in Hrow0 as (_ & Hrow0).
  destruct (states f) as [|r rows]; [done|]. injection Hrow0 as ->.
  repeat case_bool_decide; intros [= <-]; lia.
Qed.

(** Every way [Event] can return. *)
Lemma Event_Returned {A} (beforeCB enterCB : Callback A) (f : FSM) (evt : string)
    (args : A) (r : option string * FSM * A) :
  FSM.Event beforeCB enterCB f evt args = Returned r →
  (¬ inBounds f (FSM.destination f evt)
   ∧ r = (Some ("unknown state " +:+ fmt_Pair (FSM.destination f evt)), f, args))
  ∨ (inBounds f (FSM.destination f evt)
     ∧ ∃ tile e1,
         tileAt f (FSM.destination f evt) = Some tile
         ∧ beforeCB (mkEvent f evt tile (FSM.destination f evt) false args) = Returned e1
         ∧ ((Cancelled e1 = true ∧ r = (None, evFSM e1, Args e1))
            ∨ (Cancelled e1 = false
               ∧ ∃ e2,
                   enterCB (set_evFSM (FSM.SetState (FSM.destination f evt) (evFSM e1)) e1)
                   = Returned e2
                   ∧ r = (None, evFSM e2, Args e2)))).
Proof.
  unfold FSM.Event. cbv zeta.
  destruct (FSM.unknown_state f _) as [oob|] eqn:Hoob; cbn [mbind outcome_bind]; [|done].
  apply unknown_state_Returned in Hoob.
  destruct oob; [intros [= <-]; by left|].
  destruct (slice_get (states f) _) as [row|] eqn:Hrow; cbn [mbind outcome_bind]; [|done].
  destruct (slice_get row _) as [tile|] eqn:Htile; cbn [mbind outcome_bind]; [|done].
  apply slice_get_Returned in Hrow as (Hy & Hrow).
  apply slice_get_Returned in Htile as (Hx & Htile).
  assert (Ht : tileAt f (FSM.destination f evt) = Some tile).
  { unfold tileAt. rewrite bool_decide_eq_true_2 by lia. by rewrite Hrow. }
  destruct (beforeCB _) as [e1|] eqn:Hb; cbn [mbind outcome_bind]; [|done].
  destruct (Cancelled e1) eqn:Hc.
  - intros [= <-]. right. split; [done|]. exists tile, e1. split_and!; try done. by left.
  - destruct (enterCB _) as [e2|] eqn:He; cbn [mbind outcome_bind]; [|done].
    intros [= <-]. right. split; [done|]. exists tile, e1. split_and!; try done.
    right. split; [done|]. by exists e2.
Qed.

(** ** When the policy stops a move *)

(** X11.  [beforeCallback] stops a move exactly at an obstacle: when it
    returns on an event that was not cancelled, the event is cancelled if and
    only if the tile is a wall ['#'], or a breakable obstacle ['X'] met with
    the breaker mode off.  On every other tile but ['X'] it hands back the
    event as it was, and it never changes the simulator without cancelling. *)
Theorem beforeCallback_cancels_iff (e e' : Event BenderSimulator) :
  beforeCallback e = Returned e' →
  Cancelled e = false →
  (Cancelled e' = true
   ↔ Dst e = "#"%char ∨ (Dst e = "X"%char ∧ Breaker (Args e) = false))
  ∧ (Dst e ≠ "#"%char → Dst e ≠ "X"%char → e' = e)
  ∧ (Cancelled e' = false → Args e' = Args e).
Proof.
  intros He Hc0. split_and!.
  - split.
    + intros Hc. by destruct (beforeCallback_cancels _ _ He Hc0 Hc) as (_ & Hobst & _).
    + revert He. unfold beforeCallback.
      intros He [Hwall | [Hx Hbr]].
      * rewrite bool_decide_eq_true_2 in He by done.
        by apply hit_obstacle_Returned in He as (_ & Hc & _).
      * rewrite Hx, Hbr in He.
        rewrite bool_decide_eq_false_2, bool_decide_eq_true_2 in He by done.
        by apply hit_obstacle_Returned in He as (_ & Hc & _).
  - revert He. unfold beforeCallback. intros He Hwall Hx.
    rewrite !bool_decide_eq_false_2 in He by done. by injection He.
  - revert He. unfold beforeCallback.
    case_bool_decide as Hwall; [|case_bool_decide as Hx].
    + intros He Hc. apply hit_obstacle_Returned in He as (_ & Hc' & _). congruence.
    + destruct (Breaker (Args e)).
      * intros He _. by apply ChangeDst_Cancelled in He as (_ & ->).
      * intros He Hc. apply hit_obstacle_Returned in He as (_ & Hc' & _). congruence.
    + by intros [= <-].
Qed.

Lemma beforeCallback_cancels_iff_witness :
  beforeCallback (mkEvent before_the_obstacle EAST "X"%char (mkPair 3 2) false
                    (NewBenderSimulator 6)) = Returned stopped
  ∧ Cancelled stopped = true.
Proof.
  assert (H : beforeCallback (mkEvent before_the_obstacle EAST "X"%char (mkPair 3 2) false
                                (NewBenderSimulator 6)) = Returned stopped)
    by (by vm_compute).
  split; [exact H|].
  apply (proj1 (beforeCallback_cancels_iff _ _ H eq_refl)).
  right. split; reflexivity.
Defined.

Lemma beforeCallback_Returned (e e' : Event BenderSimulator) :
  beforeCallback e = Returned e' →
  Cancelled e = false →
  (Cancelled e' = true ∧ evFSM e' = evFSM e
   ∧ ∃ b1, Boom (Args e) = Returned b1 ∧ Args e' = NextDirection b1)
  ∨ (Cancelled e' = false ∧ e' = e)
  ∨ (Cancelled e' = false ∧ Dst e = "X"%char ∧ Breaker (Args e) = true
     ∧ ChangeDst " " e = Returned e').
Proof.
  intros He Hc0. destruct (Cancelled e') eqn:Hc.
  - left. destruct (beforeCallback_cancels _ _ He Hc0 Hc) as (Hf & _ & Hb). done.
  - right. revert He. unfold beforeCallback.
    case_bool_decide as Hwall; [|case_bool_decide as Hx].
    + intros He. apply hit_obstacle_Returned in He as (_ & Hc' & _). congruence.
    + destruct (Breaker (Args e)) eqn:Hbr.
      * intros He. by right.
      * intros He. apply hit_obstacle_Returned in He as (_ & Hc' & _). congruence.
    + intros [= <-]. by left.
Qed.

Lemma enterCallback_curr (e e' : Event BenderSimulator) :
  enterCallback e = Returned e' →
  (Dst e ≠ "T"%char ∧ evFSM e' = evFSM e)
  ∨ (Dst e = "T"%char
     ∧ ∃ p, FSM.TeleportDst (evFSM e) (dstC e) = Returned p
            ∧ evFSM e' = FSM.SetState p (evFSM e)).
Proof.
  destruct (decide (Dst e = "T"%char)) as [HT|HT].
  - unfold enterCallback. rewrite HT.
    do 6 (rewrite bool_decide_eq_false_2 by discriminate).
    rewrite bool_decide_eq_true_2 by done.
    destruct (FSM.TeleportDst _ _) as [p|] eqn:Hp; cbn [mbind outcome_bind]; [|done].
    intros [= <-]. right. split; [done|]. by exists p.
  - rewrite enterCallback_not_teleport by done. intros [= <-]. by left.
Qed.

(** ** What a transition of the policy records and changes *)

Lemma Event_path_cases (f f' : FSM) (evt : string) (b b' : BenderSimulator)
    (err : option string) :
  FSM.Event beforeCallback enterCallback f evt b = Returned (err, f', b') →
  (err ≠ None ∧ b' = b ∧ f' = f)
  ∨ (err = None ∧ path b' = path b ∧ f' = f ∧ Hurts b' = true ∧ pathModifier b' = "")
  ∨ (err = None ∧ path b' = path b ++ [evt] ∧ Hurts b' = false).
Proof.
  intros Hev.
  apply Event_Returned in Hev
    as [(_ & [= -> -> ->]) | (Hin & tile & e1 & Htile & Hb & Hcases)].
  { by left. }
  right.
  pose proof (beforeCallback_Returned _ _ Hb eq_refl) as Hbefore.
  destruct Hcases as [(Hc & [= -> -> ->]) | (Hc & e2 & He & [= -> -> ->])].
  - left. destruct Hbefore as [(_ & Hf & b1 & Hboom & Hargs) | [(Hc' & _) | (Hc' & _)]];
      try congruence.
    cbn [evFSM Args] in *. rewrite Hf, Hargs. unfold Hurts.
    destruct (NextDirection_frame b1) as (_ & _ & -> & _ & _ & _ & -> & ->).
    apply Boom_frame in Hboom as (_ & _ & _ & -> & _ & _ & _ & -> & ->). done.
  - right. split; [done|].
    apply enterCallback_Returned in He as (Hargs & _).
    event_simpl. rewrite Hargs. unfold Hurts at 1.
    rewrite Remember_path, tile_effect_path, Remember_boom.
    rewrite (proj1 (tile_effect_frame _ _)).
    assert (HA : Args e1 = b /\ evEvent e1 = evt).
    { destruct Hbefore as [(Hc' & _) | [(_ & ->) | (_ & _ & _ & Hch)]];
        [congruence | done |].
      apply ChangeDst_Returned in Hch as (row & _ & _ & _ & _ & ->). done. }
    destruct HA as [-> ->]. unfold Hurts. by destruct (boom b) eqn:Hboom.
Qed.

(** X12.  A transition run with the callbacks of the policy ends in one of
    three ways.  With an error, and then machine and simulator are the ones
    it was given.  With a stopped move: [nil], the very machine it was given,
    nothing appended to the path, the obstacle-hit flag set and the override
    cleared.  Or with a committed move: [nil], exactly the direction of the
    event appended to the path, and the obstacle-hit flag off.  So after a
    transition that returned [nil], [Hurts] tells whether the move was
    stopped, and the path has grown by one exactly when it was not. *)
Theorem Event_policy_path (f f' : FSM) (evt : string) (b b' : BenderSimulator)
    (err : option string) :
  FSM.Event beforeCallback enterCallback f evt b = Returned (err, f', b') →
  ((err ≠ None ∧ b' = b ∧ f' = f)
   ∨ (err = None ∧ path b' = path b ∧ f' = f ∧ Hurts b' = true ∧ pathModifier b' = "")
   ∨ (err = None ∧ path b' = path b ++ [evt] ∧ Hurts b' = false))
  ∧ (err = None → (Hurts b' = false ↔ path b' = path b ++ [evt]))
  ∧ path b `prefix_of` path b'.
Proof.
  intros Hev. pose proof (Event_path_cases _ _ _ _ _ _ Hev) as Hcases.
  split; [exact Hcases|]. split.
  - intros ->.
    destruct Hcases as [(Hne & _) | [(_ & Hp & _ & Hh & _) | (_ & Hp & Hh)]]; [done | |].
    + rewrite Hh, Hp. split; [done|]. intros Heq.
      apply (f_equal length) in Heq. rewrite length_app in Heq. cbn in Heq. lia.
    + by rewrite Hh, Hp.
  - destruct Hcases as [(_ & -> & _) | [(_ & -> & _) | (_ & -> & _)]];
      [done | done | by apply prefix_app_r].
Qed.

Lemma Event_policy_path_witness :
  ∃ f' b',
    FSM.Event beforeCallback enterCallback at_start EAST (NewBenderSimulator 9)
    = Returned (None, f', b')
    ∧ path b' = [EAST].
Proof.
  eexists. eexists. split; [by vm_compute|].
  match goal with
  | |- path ?b' = _ =>
      destruct (Event_policy_path at_start (FSM.SetState (mkPair 3 2) at_start) EAST
                  (NewBenderSimulator 9) b' None) as (_ & Hiff & _)
  end.
  - by vm_compute.
  - by apply Hiff.
Defined.

(** X13.  What a transition of the policy can change in the machine.  The
    teleports and the dimensions of the grid never change.  The tiles change
    only when a breakable obstacle is destroyed: either the grid is the one
    the transition started with, or the breaker mode was on, the destination
    held ['X'], it now holds [' '], and every other position reads as
    before. *)
Theorem Event_policy_grid (f f' : FSM) (evt : string) (b b' : BenderSimulator)
    (err : option string) :
  FSM.Event beforeCallback enterCallback f evt b = Returned (err, f', b') →
  teleports f' = teleports f
  ∧ width f' = width f
  ∧ height f' = height f
  ∧ (rectangular f → rectangular f')
  ∧ (states f' = states f
     ∨ (Breaker b = true
        ∧ tileAt f (FSM.destination f evt) = Some "X"%char
        ∧ tileAt f' (FSM.destination f evt) = Some " "%char
        ∧ ∀ p, p ≠ FSM.destination f evt → tileAt f' p = tileAt f p)).
Proof.
  intros Hev.
  apply Event_Returned in Hev
    as [(_ & [= -> -> ->]) | (Hin & tile & e1 & Htile & Hb & Hcases)].
  { split_and!; try done. by left. }
  pose proof (beforeCallback_Returned _ _ Hb eq_refl) as Hbefore.
  destruct Hcases as [(Hc & [= -> -> ->]) | (Hc & e2 & He & [= -> -> ->])].
  - destruct Hbefore as [(_ & Hf & _) | [(Hc' & _) | (Hc' & _)]]; try congruence.
    cbn [evFSM] in Hf. rewrite Hf. split_and!; try done. by left.
  - apply enterCallback_Returned in He as (_ & _ & _ & _ & _ & Hst & Htp).
    event_simpl.
    assert (Hwh : ∀ g : FSM, states g = states (evFSM e2) →
              width g = width (evFSM e2) ∧ height g = height (evFSM e2)
              ∧ (rectangular g → rectangular (evFSM e2))).
    { intros g Hg. unfold rectangular, width, height. by rewrite Hg. }
    destruct Hbefore as [(Hc' & _) | [(_ & ->) | (_ & HX & Hbr & Hch)]];
      [congruence | |].
    + event_simpl. destruct (Hwh f) as (Hw & Hh & Hr); [done|].
      rewrite Htp, <- Hw, <- Hh. split_and!; try done. by left.
    + cbn [Dst Args] in HX, Hbr. subst tile.
      destruct (ChangeDst_spec " " "X"
                  (mkEvent f evt "X"%char (FSM.destination f evt) false b))
        as (e1' & He1' & Hnew & Hold & Hw1 & Hh1 & _ & Htp1 & _); [done|].
      assert (e1' = e1) as -> by congruence.
      cbn [evFSM dstC] in *.
      destruct (Hwh (evFSM e1)) as (Hw & Hh & Hr); [done|].
      apply ChangeDst_Returned in Hch as (row & Hy & Hx & Hrow & Hlen & Heq).
      cbn [evFSM dstC] in *.
      split_and!.
      * by rewrite Htp, Htp1.
      * by rewrite <- Hw, Hw1.
      * by rewrite <- Hh, Hh1.
      * intros Hrect. apply Hr.
        eapply (width_insert f (evFSM e1)); [exact Hrow | by rewrite Heq | done].
      * right. split_and!; try done.
        -- by rewrite (tileAt_states _ (evFSM e1)).
        -- intros p Hp. rewrite (tileAt_states _ (evFSM e1)) by done. by apply Hold.
Qed.

Lemma Event_policy_grid_witness :
  ∃ f' b',
    FSM.Event beforeCallback enterCallback before_the_obstacle EAST breaking
    = Returned (None, f', b')
    ∧ tileAt f' (mkPair 3 2) = Some " "%char
    ∧ teleports f' = [].
Proof.
  eexists. eexists. split; [by vm_compute|].
  match goal with
  | |- tileAt ?f' _ = _ ∧ _ =>
      destruct (Event_policy_grid before_the_obstacle f' EAST breaking
                  (Remember EAST "X32" breaking) None)
        as (Htp & _ & _ & _ & [Hst | (_ & _ & Hnew & _)])
  end.
  - by vm_compute.
  - discriminate Hst.
  - split; [exact Hnew | exact Htp].
Defined.

(** ** Landing on a teleport and breaking an obstacle *)

Lemma Remember_breaker (dir state : string) (b : BenderSimulator) :
  breaker (Remember dir state b) = breaker b.
Proof. apply Remember_frame. Qed.

(** X14.  Entering a teleport tile of a machine with two teleports: the
    transition returns [nil], the machine is left on the paired teleport
    (the second teleport when the tile entered is at the first coordinate,
    the first teleport otherwise) with its grid unchanged, and the move is
    recorded once, under the direction of the event and the identifier of
    the tile entered. *)
Theorem Event_policy_teleports (f : FSM) (evt : string) (b : BenderSimulator)
    (p q : Pair) :
  inBounds f (FSM.destination f evt) →
  tileAt f (FSM.destination f evt) = Some "T"%char →
  teleports f = [p; q] →
  ∃ b',
    FSM.Event beforeCallback enterCallback f evt b
    = Returned (None,
                FSM.SetState (if decide (FSM.destination f evt = p) then q else p) f,
                b')
    ∧ path b' = path b ++ [evt]
    ∧ is_Some (cache b' !! ("T" +:+ itoa (x (FSM.destination f evt))
                                +:+ itoa (y (FSM.destination f evt))))
    ∧ Hurts b' = false.
Proof.
  intros Hin Htile Htp.
  assert (Hbefore : beforeCallback (mkEvent f evt "T"%char (FSM.destination f evt) false b)
                    = Returned (mkEvent f evt "T"%char (FSM.destination f evt) false b)).
  { unfold beforeCallback. cbn [Dst]. by rewrite !bool_decide_eq_false_2 by done. }
  rewrite (Event_entered _ _ _ _ _ "T"%char _ Hin Htile Hbefore eq_refl).
  unfold enterCallback. event_simpl.
  do 6 (rewrite bool_decide_eq_false_2 by discriminate).
  rewrite bool_decide_eq_true_2 by done.
  rewrite (TeleportDst_two _ p q) by done.
  event_simpl. eexists. split; [reflexivity|].
  split_and!.
  - rewrite Remember_path. by destruct (Hurts b).
  - apply Remember_cache_self.
  - unfold Hurts. rewrite Remember_boom. unfold Hurts, BackOnTrack.
    by destruct (boom b) eqn:Hb.
Qed.

Lemma Event_policy_teleports_witness :
  inBounds two_teleports (FSM.destination two_teleports EAST)
  ∧ FSM.destination two_teleports EAST = mkPair 2 1
  ∧ ∃ b', FSM.Event beforeCallback enterCallback
            (FSM.SetState (mkPair 2 1) two_teleports) EAST (NewBenderSimulator 10)
          = Returned (None, FSM.SetState (mkPair 4 2) two_teleports, b')
          ∧ path b' = [EAST].
Proof.
  split; [by vm_compute|]. split; [reflexivity|].
  destruct (Event_policy_teleports (FSM.SetState (mkPair 2 1) two_teleports) EAST
              (NewBenderSimulator 10) (mkPair 3 1) (mkPair 4 2))
    as (b' & Hev & Hpath & _).
  - by vm_compute.
  - reflexivity.
  - reflexivity.
  - exists b'. split; [exact Hev | exact Hpath].
Defined.

(** X15.  Moving onto a breakable obstacle in breaker mode: the transition
    returns [nil], the obstacle is replaced by an empty tile, every other
    tile is as before, the machine stands on the destination, and the move is
    recorded under the identifier of the obstacle ['X'], not of the empty
    tile it has become; the breaker mode stays on. *)
Theorem Event_policy_breaks (f : FSM) (evt : string) (b : BenderSimulator) :
  inBounds f (FSM.destination f evt) →
  tileAt f (FSM.destination f evt) = Some "X"%char →
  Breaker b = true →
  ∃ f' b',
    FSM.Event beforeCallback enterCallback f evt b = Returned (None, f', b')
    ∧ curr f' = FSM.destination f evt
    ∧ tileAt f' (FSM.destination f evt) = Some " "%char
    ∧ (∀ p, p ≠ FSM.destination f evt → tileAt f' p = tileAt f p)
    ∧ path b' = path b ++ [evt]
    ∧ is_Some (cache b' !! ("X" +:+ itoa (x (FSM.destination f evt))
                                +:+ itoa (y (FSM.destination f evt))))
    ∧ Breaker b' = true.
Proof.
  intros Hin Htile Hbr.
  destruct (ChangeDst_spec " " "X"
              (mkEvent f evt "X"%char (FSM.destination f evt) false b))
    as (e1 & He1 & Hnew & Hold & _ & _ & _ & _ & Heq); [done|].
  cbn [evFSM dstC] in *.
  assert (Hbefore : beforeCallback (mkEvent f evt "X"%char (FSM.destination f evt) false b)
                    = Returned e1).
  { unfold beforeCallback. cbn [Dst Args]. rewrite Hbr.
    by rewrite bool_decide_eq_false_2, bool_decide_eq_true_2 by done. }
  assert (Hc : Cancelled e1 = false) by (by rewrite Heq).
  rewrite (Event_entered _ _ _ _ _ "X"%char e1 Hin Htile Hbefore Hc).
  rewrite enterCallback_not_teleport by (rewrite Heq; discriminate).
  rewrite Heq. event_simpl.
  eexists. eexists. split; [reflexivity|].
  change (tile_effect "X") with (fun b0 : BenderSimulator => b0). cbv beta.
  split_and!.
  - reflexivity.
  - by rewrite (tileAt_states _ (evFSM e1)).
  - intros p Hp. rewrite (tileAt_states _ (evFSM e1)) by done. by apply Hold.
  - rewrite Remember_path. by destruct (Hurts b).
  - apply Remember_cache_self.
  - unfold Breaker in *. rewrite Remember_breaker. by destruct (Hurts b).
Qed.

Lemma Event_policy_breaks_witness :
  inBounds before_the_obstacle (FSM.destination before_the_obstacle EAST)
  ∧ tileAt before_the_obstacle (FSM.destination before_the_obstacle EAST) = Some "X"%char
  ∧ Breaker breaking = true
  ∧ ∃ f' b',
      FSM.Event beforeCallback enterCallback before_the_obstacle EAST breaking
      = Returned (None, f', b')
      ∧ curr f' = mkPair 3 2
      ∧ tileAt f' (mkPair 3 2) = Some " "%char.
Proof.
  assert (H1 : inBounds before_the_obstacle (FSM.destination before_the_obstacle EAST))
    by (by vm_compute).
  assert (H2 : tileAt before_the_obstacle (FSM.destination before_the_obstacle EAST)
               = Some "X"%char) by reflexivity.
  assert (H3 : Breaker breaking = true) by reflexivity.
  split; [exact H1|]. split; [exact H2|]. split; [exact H3|].
  destruct (Event_policy_breaks before_the_obstacle EAST breaking H1 H2 H3)
    as (f' & b' & Hev & Hcurr & Hnew & _).
  exists f', b'. split; [exact Hev|]. split; [exact Hcurr | exact Hnew].
Defined.

(** ** Transitions that return, and the one that does not *)

Lemma hit_obstacle_total (e : Event BenderSimulator) :
  steady (Args e) →
  ∃ b1, Boom (Args e) = Returned b1 ∧ steady b1
        ∧ hit_obstacle e = Returned (Cancel (set_Args (NextDirection b1) e)).
Proof.
  intros Hb. destruct (steady_Boom _ Hb) as (b1 & Hboom & Hb1).
  exists b1. split_and!; try done. unfold hit_obstacle. by rewrite Hboom.
Qed.

Lemma beforeCallback_total (e : Event BenderSimulator) (t0 : ascii) :
  steady (Args e) →
  tileAt (evFSM e) (dstC e) = Some t0 →
  ∃ e', beforeCallback e = Returned e'.
Proof.
  intros Hb Ht0. unfold beforeCallback.
  destruct (hit_obstacle_total e Hb) as (b1 & _ & _ & Hhit).
  case_bool_decide; [by eexists|].
  case_bool_decide; [|by eexists].
  destruct (Breaker (Args e)); [|by eexists].
  destruct (ChangeDst_spec " " t0 e Ht0) as (e' & He' & _). by exists e'.
Qed.

Lemma enterCallback_total (e : Event BenderSimulator) :
  (Dst e = "T"%char → length (teleports (evFSM e)) = 2%nat) →
  ∃ e', enterCallback e = Returned e'.
Proof.
  intros Htp. destruct (decide (Dst e = "T"%char)) as [HT|HT].
  - specialize (Htp HT).
    destruct (teleports (evFSM e)) as [|p [|q [|]]] eqn:Hl; try done.
    unfold enterCallback. rewrite HT.
    do 6 (rewrite bool_decide_eq_false_2 by discriminate).
    rewrite bool_decide_eq_true_2 by done.
    rewrite (TeleportDst_two _ p q) by done. by eexists.
  - rewrite enterCallback_not_teleport by done. by eexists.
Qed.

Lemma Event_policy_total (f : FSM) (evt : string) (b : BenderSimulator) (tile : ascii) :
  inBounds f (FSM.destination f evt) →
  tileAt f (FSM.destination f evt) = Some tile →
  steady b →
  (tile = "T"%char → length (teleports f) = 2%nat) →
  ∃ r, FSM.Event beforeCallback enterCallback f evt b = Returned r.
Proof.
  intros Hin Htile Hb Htp.
  rewrite (Event_inBounds _ _ _ _ _ tile) by done. unfold callbacks.
  destruct (beforeCallback_total (mkEvent f evt tile (FSM.destination f evt) false b) tile)
    as (e1 & He1); [done | done |].
  rewrite He1. cbn [mbind outcome_bind].
  destruct (Cancelled e1) eqn:Hc; [by eexists|].
  destruct (enterCallback_total
              (set_evFSM (FSM.SetState (FSM.destination f evt) (evFSM e1)) e1))
    as (e2 & He2).
  { event_simpl.
    destruct (beforeCallback_Returned _ _ He1 eq_refl)
      as [(Hc' & _) | [(_ & ->) | (_ & HX & _ & Hch)]]; [congruence | done |].
    apply ChangeDst_Returned in Hch as (row & _ & _ & _ & _ & ->).
    cbn [Dst set_evFSM] in *. intros HT. congruence. }
  rewrite He2. by eexists.
Qed.

Lemma no_teleport_tile_set_up (f : FSM) :
  Forall (Forall (fun tile => tile ≠ "T"%char)) (states f) → teleports_set_up f.
Proof.
  intros Hno p Ht. exfalso.
  apply tileAt_Some in Ht as (_ & _ & row & Hrow & Hcol).
  rewrite Forall_lookup in Hno. specialize (Hno _ _ Hrow).
  rewrite Forall_lookup in Hno. by apply (Hno _ _ Hcol).
Qed.

(** X16.  The transitions of the policy return.  On a rectangular grid with
    at least one row, with a steady simulator, and with two teleports known
    if the grid has a teleport tile at all, [Event] with the callbacks of the
    policy never panics, whatever the position and whatever the event string:
    it returns the bounds error when the destination is out of bounds and
    [nil] otherwise. *)
Theorem Event_policy_returns (f : FSM) (evt : string) (b : BenderSimulator) :
  rectangular f →
  states f ≠ [] →
  steady b →
  teleports_set_up f →
  ∃ err f' b',
    FSM.Event beforeCallback enterCallback f evt b = Returned (err, f', b')
    ∧ (err = None ↔ inBounds f (FSM.destination f evt)).
Proof.
  intros Hrect Hne Hb Htp.
  destruct (decide (0 <= x (FSM.destination f evt) < width f
                    ∧ 0 <= y (FSM.destination f evt) < height f)) as [Hin|Hout].
  - destruct (rectangular_tileAt f _ Hrect Hin) as [tile Htile].
    destruct (Event_policy_total f evt b tile Hin Htile Hb) as ([[err f'] b'] & Hev).
    { intros ->. by apply (Htp (FSM.destination f evt)). }
    exists err, f', b'. split; [done|]. split; [done|]. intros _.
    apply Event_Returned in Hev as [(Hout & _) | (_ & tl & e1 & _ & _ & Hcases)]; [done|].
    destruct Hcases as [(_ & [= -> _ _]) | (_ & e2 & _ & [= -> _ _])]; done.
  - exists (Some ("unknown state " +:+ fmt_Pair (FSM.destination f evt))), f, b.
    split; [|split; [done | by intros ?]].
    unfold FSM.Event. cbv zeta. by rewrite unknown_state_outside.
Qed.

Lemma Event_policy_returns_witness :
  rectangular at_start
  ∧ states at_start ≠ []
  ∧ steady (NewBenderSimulator 9)
  ∧ teleports_set_up at_start
  ∧ ∃ err f' b',
      FSM.Event beforeCallback enterCallback at_start "UP" (NewBenderSimulator 9)
      = Returned (err, f', b')
      ∧ err = None.
Proof.
  assert (H1 : rectangular at_start) by (repeat constructor).
  assert (H2 : states at_start ≠ []) by discriminate.
  assert (H3 : steady (NewBenderSimulator 9)).
  { unfold steady. cbn. split_and!; [done | lia | lia | apply list_elem_of_here]. }
  assert (H4 : teleports_set_up at_start).
  { apply no_teleport_tile_set_up. repeat (constructor || discriminate). }
  split; [exact H1|]. split; [exact H2|]. split; [exact H3|]. split; [exact H4|].
  destruct (Event_policy_returns at_start "UP" (NewBenderSimulator 9) H1 H2 H3 H4)
    as (err & f' & b' & Hev & Herr).
  exists err, f', b'. split; [exact Hev|]. apply Herr. by vm_compute.
Defined.

(** X17.  The one panic of a committed move: entering a teleport tile of a
    machine that does not know exactly two teleport coordinates makes
    [Event] panic with "teleports badly setup", whatever the simulator. *)
Theorem Event_policy_lone_teleport (f : FSM) (evt : string) (b : BenderSimulator) :
  inBounds f (FSM.destination f evt) →
  tileAt f (FSM.destination f evt) = Some "T"%char →
  length (teleports f) ≠ 2%nat →
  FSM.Event beforeCallback enterCallback f evt b = Panicked "teleports badly setup".
Proof.
  intros Hin Htile Hlen.
  assert (Hbefore : beforeCallback (mkEvent f evt "T"%char (FSM.destination f evt) false b)
                    = Returned (mkEvent f evt "T"%char (FSM.destination f evt) false b)).
  { unfold beforeCallback. cbn [Dst]. by rewrite !bool_decide_eq_false_2 by done. }
  rewrite (Event_entered _ _ _ _ _ "T"%char _ Hin Htile Hbefore eq_refl).
  unfold enterCallback. event_simpl.
  do 6 (rewrite bool_decide_eq_false_2 by discriminate).
  rewrite bool_decide_eq_true_2 by done.
  unfold FSM.TeleportDst. cbn [teleports FSM.SetState].
  rewrite bool_decide_eq_true_2; [done|]. unfold len. lia.
Qed.

Lemma Event_policy_lone_teleport_witness :
  inBounds lone_teleport (FSM.destination lone_teleport EAST)
  ∧ tileAt lone_teleport (FSM.destination lone_teleport EAST) = Some "T"%char
  ∧ length (teleports lone_teleport) ≠ 2%nat
  ∧ FSM.Event beforeCallback enterCallback lone_teleport EAST (NewBenderSimulator 2)
    = Panicked "teleports badly setup".
Proof.
  assert (H1 : inBounds lone_teleport (FSM.destination lone_teleport EAST))
    by (by vm_compute).
  assert (H2 : tileAt lone_teleport (FSM.destination lone_teleport EAST) = Some "T"%char)
    by reflexivity.
  assert (H3 : length (teleports lone_teleport) ≠ 2%nat) by (cbn; discriminate).
  split; [exact H1|]. split; [exact H2|]. split; [exact H3|].
  exact (Event_policy_lone_teleport lone_teleport EAST (NewBenderSimulator 2) H1 H2 H3).
Defined.

(** ** A machine enclosed in its maze *)

Lemma destination_inBounds (f : FSM) (evt : string) :
  width f <= int_max → height f <= int_max →
  strictlyInside f (curr f) →
  evt ∈ [SOUTH; NORTH; EAST; WEST] →
  inBounds f (FSM.destination f evt).
Proof.
  intros Hw Hh [Hx Hy] Hevt. unfold inBounds, FSM.destination, int_max in *.
  rewrite !elem_of_cons in Hevt.
  destruct Hevt as [-> | [-> | [-> | [-> | Hevt]]]]; [| | | | by apply elem_of_nil in Hevt].
  - rewrite bool_decide_eq_true_2 by done. cbn [x y].
    rewrite int_add_small by (unfold is_int, int_min, int_max; lia). lia.
  - rewrite bool_decide_eq_false_2, bool_decide_eq_true_2 by done. cbn [x y].
    rewrite int_sub_small by (unfold is_int, int_min, int_max; lia). lia.
  - rewrite !(bool_decide_eq_false_2 (EAST = _)) by done.
    rewrite bool_decide_eq_true_2 by done. cbn [x y].
    rewrite int_add_small by (unfold is_int, int_min, int_max; lia). lia.
  - rewrite !(bool_decide_eq_false_2 (WEST = _)) by done.
    rewrite bool_decide_eq_true_2 by done. cbn [x y].
    rewrite int_sub_small by (unfold is_int, int_min, int_max; lia). lia.
Qed.

Lemma beforeCallback_wall (e e' : Event BenderSimulator) :
  beforeCallback e = Returned e' → Dst e = "#"%char → Cancelled e' = true.
Proof.
  intros He Hwall. revert He.
  unfold beforeCallback. rewrite bool_decide_eq_true_2 by done.
  intros He. by apply hit_obstacle_Returned in He as (_ & Hc & _).
Qed.

(** A machine stays enclosed when the position moves to a place strictly
    inside and tiles strictly inside are replaced by empty tiles. *)
Lemma enclosed_change (f g : FSM) :
  enclosed f →
  rectangular g → width g = width f → height g = height f →
  teleports g = teleports f →
  strictlyInside f (curr g) →
  (∀ p, tileAt g p = tileAt f p ∨ (strictlyInside f p ∧ tileAt g p = Some " "%char)) →
  enclosed g.
Proof.
  intros (Hrect & Hw & Hh & Hfr & Hcur & Htps & Hset) Hrg Hwg Hhg Htg Hcg Htiles.
  assert (Hsi : ∀ p, strictlyInside g p ↔ strictlyInside f p).
  { intros p. unfold strictlyInside. by rewrite Hwg, Hhg. }
  unfold enclosed. split_and!; try done; try lia.
  - intros p Hin Hns.
    destruct (Htiles p) as [-> | (Hp & _)].
    + apply Hfr; [|by rewrite <- Hsi]. unfold inBounds in *. by rewrite <- Hwg, <- Hhg.
    + exfalso. by apply Hns, Hsi.
  - by apply Hsi.
  - rewrite Htg. eapply Forall_impl; [exact Htps|]. intros p. apply Hsi.
  - intros p Hp. rewrite Htg.
    destruct (Htiles p) as [Heq | (_ & Heq)]; rewrite Heq in Hp; [|done].
    by apply (Hset p).
Qed.

Lemma Direction_returns (b : BenderSimulator) :
  steady b → ∃ dir, Direction b = Returned dir ∧ dir ∈ [SOUTH; NORTH; EAST; WEST].
Proof.
  intros Hb. pose proof (steady_len b Hb) as Hlen.
  destruct Hb as (Hp & Hc & Hm). unfold Direction.
  case_bool_decide as Hpm.
  - exists (pathModifier b). split; [done|].
    rewrite elem_of_cons in Hm. by destruct Hm.
  - destruct (lookup_lt_is_Some_2 (priorities b) (Z.to_nat (currDir b))) as [dir Hdir].
    { unfold len in Hlen. lia. }
    exists dir. split.
    + apply slice_get_is_Some; [lia | done].
    + apply list_elem_of_lookup_2 in Hdir. rewrite Hp in Hdir.
      rewrite !elem_of_cons in Hdir. rewrite !elem_of_cons. tauto.
Qed.

Lemma Event_keeps_steady (f f' : FSM) (evt : string) (b b' : BenderSimulator)
    (err : option string) :
  steady b →
  FSM.Event beforeCallback enterCallback f evt b = Returned (err, f', b') →
  steady b'.
Proof.
  intros Hb Hev.
  apply Event_Returned in Hev
    as [(_ & [= -> -> ->]) | (Hin & tile & e1 & Htile & Hb1 & Hcases)]; [done|].
  pose proof (beforeCallback_Returned _ _ Hb1 eq_refl) as Hbefore.
  assert (Hs1 : steady (Args e1)).
  { destruct Hbefore as [(_ & _ & b1 & Hboom & ->) | [(_ & ->) | (_ & _ & _ & Hch)]].
    - cbn [Args] in Hboom. destruct (steady_Boom b Hb) as (b1' & Hboom' & Hb1').
      assert (b1 = b1') as -> by congruence. by apply steady_NextDirection.
    - done.
    - by apply ChangeDst_Cancelled in Hch as (_ & ->). }
  destruct Hcases as [(Hc & [= -> -> ->]) | (Hc & e2 & He & [= -> -> ->])]; [done|].
  apply enterCallback_Returned in He as (-> & _). event_simpl.
  apply steady_Remember, steady_tile_effect.
  by destruct (Hurts (Args e1)).
Qed.

Lemma enclosed_step (f : FSM) (evt : string) (b : BenderSimulator) :
  enclosed f → steady b →
  evt ∈ [SOUTH; NORTH; EAST; WEST] →
  ∃ f' b',
    FSM.Event beforeCallback enterCallback f evt b = Returned (None, f', b')
    ∧ enclosed f' ∧ steady b'.
Proof.
  intros Henc Hb Hevt.
  pose proof Henc as (Hrect & Hw & Hh & Hfr & Hcur & Htps & Hset).
  pose proof (destination_inBounds f evt Hw Hh Hcur Hevt) as Hin.
  destruct (rectangular_tileAt f _ Hrect Hin) as [tile Htile].
  destruct (Event_policy_total f evt b tile Hin Htile Hb) as ([[err f'] b'] & Hev).
  { intros ->. by apply (Hset (FSM.destination f evt)). }
  pose proof (Event_keeps_steady _ _ _ _ _ _ Hb Hev) as Hb'.
  exists f', b'.
  destruct (Event_Returned _ _ _ _ _ _ Hev)
    as [(Hout & _) | (_ & tile' & e1 & Htile' & Hb1 & Hcases)]; [done|].
  assert (tile' = tile) as -> by congruence.
  pose proof (beforeCallback_Returned _ _ Hb1 eq_refl) as Hbefore.
  destruct Hcases as [(Hc & [= -> -> ->]) | (Hc & e2 & He & [= -> -> ->])].
  { (* the move was stopped *)
    split_and!; try done.
    destruct Hbefore as [(_ & Hf & _) | [(Hc' & _) | (Hc' & _)]]; try congruence.
    cbn [evFSM] in Hf. by rewrite Hf. }
  split_and!; try done.
  (* the destination is no wall, so it is strictly inside *)
  assert (Hdst : strictlyInside f (FSM.destination f evt)).
  { destruct (decide (0 < x (FSM.destination f evt) < width f - 1
                      ∧ 0 < y (FSM.destination f evt) < height f - 1)) as [Hsi|Hns];
      [done|].
    exfalso. pose proof (Hfr _ Hin Hns) as Hwall.
    assert (tile = "#"%char) as -> by congruence.
    rewrite (beforeCallback_wall _ _ Hb1 eq_refl) in Hc. done. }
  pose proof (enterCallback_Returned _ _ He) as (_ & _ & _ & _ & _ & Hst2 & Htp2).
  event_simpl.
  assert (Hcur2 : strictlyInside f (curr (evFSM e2))).
  { apply enterCallback_curr in He as [(_ & ->) | (_ & p & Hp & ->)]; event_simpl.
    - done.
    - apply TeleportDst_Returned in Hp as (Hp & _). cbn [teleports FSM.SetState] in Hp.
      rewrite Forall_forall in Htps. apply Htps.
      destruct Hbefore as [(Hc' & _) | [(_ & ->) | (_ & _ & _ & Hch)]];
        [congruence | done |].
      apply ChangeDst_Returned in Hch as (row & _ & _ & _ & _ & ->). exact Hp. }
  destruct Hbefore as [(Hc' & _) | [(_ & ->) | (_ & HX & _ & Hch)]]; [congruence | |].
  - (* the grid is untouched *)
    event_simpl.
    apply (enclosed_change f); try done.
    + unfold rectangular, width in *. by rewrite Hst2.
    + unfold width. by rewrite Hst2.
    + unfold height. by rewrite Hst2.
    + intros p. left. by apply tileAt_states.
  - (* an obstacle was broken *)
    cbn [Dst] in HX. subst tile.
    destruct (ChangeDst_spec " " "X"
                (mkEvent f evt "X"%char (FSM.destination f evt) false b) Htile)
      as (e1' & He1' & Hnew & Hold & Hw1 & Hh1 & _ & Ht1 & _).
    assert (e1' = e1) as -> by congruence. cbn [evFSM dstC] in *.
    apply ChangeDst_Returned in Hch as (row & _ & _ & Hrow & _ & Heq).
    cbn [evFSM dstC] in *.
    assert (Hr1 : rectangular (evFSM e1)).
    { eapply (width_insert f (evFSM e1)); [exact Hrow | by rewrite Heq | done]. }
    apply (enclosed_change f); try done.
    + unfold rectangular, width in *. by rewrite Hst2.
    + rewrite <- Hw1. unfold width. by rewrite Hst2.
    + rewrite <- Hh1. unfold height. by rewrite Hst2.
    + by rewrite Htp2.
    + intros p. rewrite (tileAt_states _ (evFSM e1)) by done.
      destruct (decide (p = FSM.destination f evt)) as [->|Hne].
      * right. by split.
      * left. by apply Hold.
Qed.

(** X18.  Inside a framed maze a transition cannot fail.  Let the machine be
    enclosed (rectangular grid with a frame of walls, position and teleports
    strictly inside, two teleports known if there is a teleport tile) and the
    simulator steady.  Then for each of the four directions [Event] with the
    callbacks of the policy returns [nil]: never a panic, never the bounds
    error.  The machine it hands back is enclosed again, so its position is
    strictly inside the frame; the simulator is steady again; and the path is
    the old one, or the old one with the direction appended. *)
Theorem Event_policy_enclosed (f : FSM) (evt : string) (b : BenderSimulator) :
  enclosed f →
  steady b →
  evt ∈ [SOUTH; NORTH; EAST; WEST] →
  ∃ f' b',
    FSM.Event beforeCallback enterCallback f evt b = Returned (None, f', b')
    ∧ enclosed f'
    ∧ steady b'
    ∧ strictlyInside f' (curr f')
    ∧ (path b' = path b ∨ path b' = path b ++ [evt]).
Proof.
  intros Henc Hb Hevt.
  destruct (enclosed_step f evt b Henc Hb Hevt) as (f' & b' & Hev & Henc' & Hb').
  exists f', b'. split_and!; try done.
  - apply Henc'.
  - destruct (Event_path_cases _ _ _ _ _ _ Hev)
      as [(Hne & _) | [(_ & Hp & _) | (_ & Hp & _)]]; [done | by left | by right].
Qed.

Lemma at_start_enclosed : enclosed at_start.
Proof.
  unfold enclosed. split_and!.
  - repeat constructor.
  - by vm_compute.
  - by vm_compute.
  - intros [px py] [Hx Hy] Hns.
    change (width at_start) with 5 in Hx. change (height at_start) with 5 in Hy.
    cbn [x y] in Hx, Hy.
    assert (Hpx : px = 0 ∨ px = 1 ∨ px = 2 ∨ px = 3 ∨ px = 4) by lia.
    assert (Hpy : py = 0 ∨ py = 1 ∨ py = 2 ∨ py = 3 ∨ py = 4) by lia.
    destruct Hpx as [-> | [-> | [-> | [-> | ->]]]],
             Hpy as [-> | [-> | [-> | [-> | ->]]]];
      first [reflexivity | exfalso; apply Hns; by vm_compute].
  - by vm_compute.
  - constructor.
  - apply no_teleport_tile_set_up. repeat (constructor || discriminate).
Qed.

Lemma steady_New (n : Z) : steady (NewBenderSimulator n).
Proof.
  unfold steady. cbn. split_and!; [done | lia | lia | apply list_elem_of_here].
Qed.

Lemma Event_policy_enclosed_witness :
  enclosed at_start
  ∧ steady (NewBenderSimulator 9)
  ∧ SOUTH ∈ [SOUTH; NORTH; EAST; WEST]
  ∧ ∃ f' b',
      FSM.Event beforeCallback enterCallback at_start SOUTH (NewBenderSimulator 9)
      = Returned (None, f', b')
      ∧ strictlyInside f' (curr f').
Proof.
  split; [exact at_start_enclosed|]. split; [exact (steady_New 9)|].
  assert (H : SOUTH ∈ [SOUTH; NORTH; EAST; WEST]) by (repeat constructor).
  split; [exact H|].
  destruct (Event_policy_enclosed at_start SOUTH (NewBenderSimulator 9)
              at_start_enclosed (steady_New 9) H) as (f' & b' & Hev & _ & _ & Hin & _).
  exists f', b'. split; [exact Hev | exact Hin].
Defined.

(** ** The run *)

Lemma drive_unfold (n : nat) (m : FSM) (bender : BenderSimulator) :
  drive (S n) m bender
  = if negb (Done bender) && negb (Loop bender) then
      d ← Direction bender;
      r ← FSM.Event beforeCallback enterCallback m d bender;
      match r with
      | (Some msg, m', bender') => Returned (Some msg, m', bender')
      | (None, m', bender') => drive n m' bender'
      end
    else Returned (None, m, bender).
Proof.
  cbn [drive]. destruct (negb (Done bender) && negb (Loop bender)); [|done].
  destruct (Direction bender) as [d|]; cbn [mbind outcome_bind]; [|done].
  destruct (FSM.Event _ _ _ _ _) as [[[[msg|] m'] bender']|]; cbn [mbind outcome_bind]; done.
Qed.

(** X19.  A run inside a framed maze never fails.  From an enclosed machine
    and a steady simulator, the loop of [main] run for any number [n] of
    transitions neither panics nor stops on an error; the machine is still
    enclosed and the simulator steady, the path has only been extended, and by
    at most one direction for each transition. *)
Theorem drive_enclosed (n : nat) (m : FSM) (bender : BenderSimulator) :
  enclosed m →
  steady bender →
  ∃ m' bender',
    drive n m bender = Returned (None, m', bender')
    ∧ enclosed m'
    ∧ steady bender'
    ∧ path bender `prefix_of` path bender'
    ∧ (length (path bender') ≤ length (path bender) + n)%nat.
Proof.
  revert m bender. induction n as [|n IH]; intros m bender Hm Hb.
  { exists m, bender. cbn [drive]. split_and!; try done. lia. }
  rewrite drive_unfold.
  destruct (negb (Done bender) && negb (Loop bender)).
  2:{ exists m, bender. split_and!; try done. lia. }
  destruct (Direction_returns bender Hb) as (d & Hd & Hdir).
  rewrite Hd. cbn [mbind outcome_bind].
  destruct (enclosed_step m d bender Hm Hb Hdir) as (m1 & b1 & Hev & Hm1 & Hb1).
  rewrite Hev. cbn [mbind outcome_bind].
  destruct (IH m1 b1 Hm1 Hb1) as (m' & b' & Hrun & Hm' & Hb' & Hpre & Hlen).
  exists m', b'. split_and!; try done.
  - etrans; [|exact Hpre].
    destruct (Event_path_cases _ _ _ _ _ _ Hev)
      as [(Hne & _) | [(_ & -> & _) | (_ & -> & _)]];
      [done | done | by apply prefix_app_r].
  - destruct (Event_path_cases _ _ _ _ _ _ Hev)
      as [(Hne & _) | [(_ & Hp & _) | (_ & Hp & _)]]; [done | |];
      rewrite Hp in Hlen; rewrite ?length_app in Hlen; cbn in Hlen; lia.
Qed.

Lemma drive_enclosed_witness :
  enclosed at_start
  ∧ steady (NewBenderSimulator 9)
  ∧ ∃ m' bender',
      drive 1000 at_start (NewBenderSimulator 9) = Returned (None, m', bender')
      ∧ enclosed m'.
Proof.
  split; [exact at_start_enclosed|]. split; [exact (steady_New 9)|].
  destruct (drive_enclosed 1000 at_start (NewBenderSimulator 9)
              at_start_enclosed (steady_New 9)) as (m' & b' & Hrun & Hm' & _).
  exists m', b'. split; [exact Hrun | exact Hm'].
Defined.

(** * Building the machine from a plan *)

Lemma list_ascii_lookup (s : string) (n : nat) :
  String.list_ascii_of_string s !! n = String.get n s.
Proof.
  revert n. induction s as [|c s IH]; intros [|n]; cbn; try done.
Qed.

Lemma list_ascii_length (s : string) :
  length (String.list_ascii_of_string s) = String.length s.
Proof. induction s as [|c s IH]; cbn; [done | by rewrite IH]. Qed.

Lemma scan_plan_states (plan : list string) :
  ∀ (i : Z) (sts : list (list ascii)) (start : Pair) (tp : list Pair),
    states (scan_plan i plan sts start tp)
    = sts ++ (String.list_ascii_of_string <$> plan).
Proof.
  induction plan as [|s plan IH]; intros i sts start tp; cbn [scan_plan fmap list_fmap].
  - by rewrite app_nil_r.
  - destruct (scan_row i 0 s start tp) as [start' tp'].
    rewrite IH. by rewrite <- app_assoc.
Qed.

(** X20.  [NewFSM] copies the plan: the grid has one row for each string of
    the plan, in order, holding the bytes of that string, so the tile at
    column [c] of row [r] is byte [c] of string [r] of the plan, whatever the
    symbols are and whether or not the rows have one length; the height is
    the number of strings and the width the length of the first. *)
Theorem NewFSM_copies_plan (plan : list string) :
  states (NewFSM plan) = String.list_ascii_of_string <$> plan
  ∧ height (NewFSM plan) = len plan
  ∧ width (NewFSM plan)
    = match plan with [] => 0 | s :: _ => Z.of_nat (String.length s) end
  ∧ ∀ r c : nat,
      tileAt (NewFSM plan) (mkPair (Z.of_nat c) (Z.of_nat r))
      = (s ← plan !! r; String.get c s).
Proof.
  assert (Hst : states (NewFSM plan) = String.list_ascii_of_string <$> plan).
  { unfold NewFSM. by rewrite scan_plan_states. }
  split_and!.
  - exact Hst.
  - unfold height, len. by rewrite Hst, length_fmap.
  - unfold width. rewrite Hst. destruct plan as [|s plan]; [done|].
    cbn. unfold len. by rewrite list_ascii_length.
  - intros r c. unfold tileAt. cbn [x y].
    rewrite bool_decide_eq_true_2 by lia. rewrite !Nat2Z.id, Hst, list_lookup_fmap.
    destruct (plan !! r) as [s|]; cbn; [|done]. apply list_ascii_lookup.
Qed.

(** The coordinates [NewFSM] has collected so far address their symbols in
    the grid [g]. *)
Lemma scan_row_finds (g : FSM) (i : Z) (s : string) :
  ∀ (pre : list ascii) (j : Z) (start : Pair) (tp : list Pair),
    0 <= i →
    states g !! Z.to_nat i = Some (pre ++ String.list_ascii_of_string s) →
    j = len pre →
    len (pre ++ String.list_ascii_of_string s) <= int_max →
    (start = mkPair 0 0 ∨ tileAt g start = Some "@"%char) →
    Forall (fun p => tileAt g p = Some "T"%char) tp →
    (fst (scan_row i j s start tp) = mkPair 0 0
     ∨ tileAt g (fst (scan_row i j s start tp)) = Some "@"%char)
    ∧ Forall (fun p => tileAt g p = Some "T"%char) (snd (scan_row i j s start tp)).
Proof.
  induction s as [|c s IH]; intros pre j start tp Hi Hrow -> Hmax Hstart Htp;
    cbn [scan_row]; [done|].
  destruct (bool_decide (len tp = 2) && bool_decide (start ≠ mkPair 0 0)); [done|].
  cbn [String.list_ascii_of_string] in Hrow, Hmax.
  assert (Hhere : tileAt g (mkPair (len pre) i) = Some c).
  { unfold tileAt. cbn [x y]. pose proof (len_nonneg pre).
    rewrite bool_decide_eq_true_2 by lia. rewrite Hrow. cbn [mbind option_bind].
    unfold len. rewrite Nat2Z.id. by apply list_lookup_middle. }
  assert (Hnext : int_add (len pre) 1 = len (pre ++ [c])).
  { rewrite len_app in *. pose proof (len_nonneg pre).
    pose proof (len_nonneg (String.list_ascii_of_string s)).
    change (len [c]) with 1.
    change (len (c :: String.list_ascii_of_string s))
      with (Z.of_nat (S (length (String.list_ascii_of_string s)))) in Hmax.
    unfold len in *.
    apply int_add_small. unfold is_int, int_min, int_max in *. lia. }
  assert (Hrow' : states g !! Z.to_nat i
                  = Some ((pre ++ [c]) ++ String.list_ascii_of_string s)).
  { by rewrite <- app_assoc. }
  assert (Hmax' : len ((pre ++ [c]) ++ String.list_ascii_of_string s) <= int_max).
  { by rewrite <- app_assoc. }
  rewrite Hnext.
  repeat case_bool_decide; apply (IH (pre ++ [c])); try done.
  - right. rewrite Hhere. congruence.
  - apply Forall_app. split; [done|]. constructor; [|done]. rewrite Hhere. congruence.
Qed.

Lemma scan_plan_finds (g : FSM) (plan : list string) :
  ∀ (i : Z) (sts : list (list ascii)) (start : Pair) (tp : list Pair),
    states g = sts ++ (String.list_ascii_of_string <$> plan) →
    i = len sts →
    len (states g) <= int_max →
    Forall (fun s => Z.of_nat (String.length s) <= int_max) plan →
    (start = mkPair 0 0 ∨ tileAt g start = Some "@"%char) →
    Forall (fun p => tileAt g p = Some "T"%char) tp →
    (curr (scan_plan i plan sts start tp) = mkPair 0 0
     ∨ tileAt g (curr (scan_plan i plan sts start tp)) = Some "@"%char)
    ∧ Forall (fun p => tileAt g p = Some "T"%char)
        (teleports (scan_plan i plan sts start tp)).
Proof.
  induction plan as [|s plan IH]; intros i sts start tp Hg -> Hmax Hrows Hstart Htp;
    cbn [scan_plan]; [done|].
  apply Forall_cons in Hrows as [Hs Hrows].
  destruct (scan_row_finds g (len sts) s [] 0 start tp) as (Hstart' & Htp');
    try done.
  { apply len_nonneg. }
  { rewrite Hg. unfold len. rewrite Nat2Z.id. cbn [fmap list_fmap app].
    by apply list_lookup_middle. }
  { cbn [app]. unfold len. by rewrite list_ascii_length. }
  destruct (scan_row (len sts) 0 s start tp) as [start' tp'].
  cbn [fst snd] in *.
  apply IH; try done.
  - rewrite Hg. cbn [fmap list_fmap]. by rewrite <- app_assoc.
  - rewrite len_app. change (len [String.list_ascii_of_string s]) with 1.
    apply int_add_small. rewrite Hg, !len_app in Hmax.
    pose proof (len_nonneg sts).
    pose proof (len_nonneg (String.list_ascii_of_string <$> plan)).
    change (len (String.list_ascii_of_string <$> s :: plan))
      with (Z.of_nat (S (length (String.list_ascii_of_string <$> plan)))) in Hmax.
    unfold len, is_int, int_min, int_max in *. lia.
Qed.

(** X21.  What [NewFSM] finds is in the plan.  For a plan whose number of
    rows and row lengths are Go integers: every teleport coordinate of the
    machine addresses a tile ['T'] of the grid, and the position is either
    the origin [(0,0)] or addresses a tile ['@'].  So a plan without ['T']
    gives no teleports, and a plan without ['@'] leaves the machine at the
    origin. *)
Theorem NewFSM_finds_symbols (plan : list string) :
  len plan <= int_max →
  Forall (fun s => Z.of_nat (String.length s) <= int_max) plan →
  Forall (fun p => tileAt (NewFSM plan) p = Some "T"%char) (teleports (NewFSM plan))
  ∧ (curr (NewFSM plan) = mkPair 0 0
     ∨ tileAt (NewFSM plan) (curr (NewFSM plan)) = Some "@"%char)
  ∧ (Forall (Forall (fun tile => tile ≠ "T"%char)) (states (NewFSM plan)) →
     teleports (NewFSM plan) = [])
  ∧ (Forall (Forall (fun tile => tile ≠ "@"%char)) (states (NewFSM plan)) →
     curr (NewFSM plan) = mkPair 0 0).
Proof.
  intros Hlen Hrows.
  destruct (scan_plan_finds (NewFSM plan) plan 0 [] (mkPair 0 0) []) as (Hstart & Htp);
    try done.
  { unfold NewFSM. by rewrite scan_plan_states. }
  { unfold NewFSM. rewrite scan_plan_states. cbn [app]. unfold len in *.
    by rewrite length_fmap. }
  { by left. }
  change (scan_plan 0 plan [] (mkPair 0 0) []) with (NewFSM plan) in *.
  assert (Hno : ∀ (sym : ascii) (p : Pair),
            Forall (Forall (fun tile => tile ≠ sym)) (states (NewFSM plan)) →
            tileAt (NewFSM plan) p ≠ Some sym).
  { intros sym p Hall Hp.
    apply tileAt_Some in Hp as (_ & _ & row & Hrow & Hcol).
    rewrite Forall_lookup in Hall. specialize (Hall _ _ Hrow).
    rewrite Forall_lookup in Hall. by apply (Hall _ _ Hcol). }
  split_and!; try done.
  - intros Hall.
    destruct (teleports (NewFSM plan)) as [|p tps]; [done|].
    apply Forall_cons in Htp as [Hp _]. by apply Hno in Hp.
  - intros Hall. destruct Hstart as [Hs|Hs]; [done|]. by apply Hno in Hs.
Qed.

Lemma NewFSM_finds_symbols_witness :
  len ["#######"; "#@ T  #"; "#   T$#"; "#######"] <= int_max
  ∧ Forall (fun s => Z.of_nat (String.length s) <= int_max)
      ["#######"; "#@ T  #"; "#   T$#"; "#######"]
  ∧ Forall (fun p => tileAt two_teleports p = Some "T"%char) (teleports two_teleports)
  ∧ tileAt two_teleports (curr two_teleports) = Some "@"%char.
Proof.
  assert (H1 : len ["#######"; "#@ T  #"; "#   T$#"; "#######"] <= int_max)
    by (by vm_compute).
  assert (H2 : Forall (fun s => Z.of_nat (String.length s) <= int_max)
                 ["#######"; "#@ T  #"; "#   T$#"; "#######"]).
  { repeat constructor; by vm_compute. }
  split; [exact H1|]. split; [exact H2|].
  destruct (NewFSM_finds_symbols _ H1 H2) as (Htp & [Hs|Hs] & _).
  - discriminate Hs.
  - split; [exact Htp | exact Hs].
Defined.

(** * The identifier of a visited state *)

Lemma itoa_digit (z : Z) :
  0 <= z < 10 → itoa z = String (ascii_of_nat (48 + Z.to_nat z)) "".
Proof.
  intros Hz.
  assert (z = 0 ∨ z = 1 ∨ z = 2 ∨ z = 3 ∨ z = 4 ∨ z = 5 ∨ z = 6 ∨ z = 7 ∨ z = 8 ∨ z = 9)
    as [-> | [-> | [-> | [-> | [-> | [-> | [-> | [-> | [-> | ->]]]]]]]]] by lia;
    reflexivity.
Qed.

Lemma itoa_two_digits (a b : Z) :
  1 <= a < 10 → 0 <= b < 10 →
  itoa (10 * a + b)
  = String (ascii_of_nat (48 + Z.to_nat a)) (String (ascii_of_nat (48 + Z.to_nat b)) "").
Proof.
  intros Ha Hb.
  assert (a = 1 ∨ a = 2 ∨ a = 3 ∨ a = 4 ∨ a = 5 ∨ a = 6 ∨ a = 7 ∨ a = 8 ∨ a = 9)
    as [-> | [-> | [-> | [-> | [-> | [-> | [-> | [-> | ->]]]]]]]] by lia;
  assert (b = 0 ∨ b = 1 ∨ b = 2 ∨ b = 3 ∨ b = 4 ∨ b = 5 ∨ b = 6 ∨ b = 7 ∨ b = 8 ∨ b = 9)
    as [-> | [-> | [-> | [-> | [-> | [-> | [-> | [-> | [-> | ->]]]]]]]]] by lia;
    reflexivity.
Qed.

Lemma digit_inj (a b : Z) :
  0 <= a < 10 → 0 <= b < 10 →
  ascii_of_nat (48 + Z.to_nat a) = ascii_of_nat (48 + Z.to_nat b) → a = b.
Proof.
  intros Ha Hb Heq. apply (f_equal nat_of_ascii) in Heq.
  rewrite !nat_ascii_embedding in Heq by lia. lia.
Qed.

Lemma fmt_c_cases (c : ascii) :
  ((N_of_ascii c < 128)%N ∧ fmt_c c = String c "")
  ∨ ((128 <= N_of_ascii c < 256)%N
     ∧ fmt_c c = String (ascii_of_N (192 + N_of_ascii c / 64))
                   (String (ascii_of_N (128 + N_of_ascii c `mod` 64)) "")).
Proof.
  unfold fmt_c. pose proof (N_ascii_bounded c).
  destruct (N.ltb_spec (N_of_ascii c) 128); [left | right]; split; (done || lia).
Qed.

(** X22.  On a grid of at most ten rows and ten columns the identifier is
    unique: for coordinates between [0] and [9], two events with the same
    [UniqueDst] have the same tile and the same coordinates, whatever the two
    bytes are. *)
Theorem UniqueDst_injective_small {A B} (e1 : Event A) (e2 : Event B) :
  0 <= x (dstC e1) < 10 → 0 <= y (dstC e1) < 10 →
  0 <= x (dstC e2) < 10 → 0 <= y (dstC e2) < 10 →
  UniqueDst e1 = UniqueDst e2 →
  Dst e1 = Dst e2 ∧ dstC e1 = dstC e2.
Proof.
  intros Hx1 Hy1 Hx2 Hy2. unfold UniqueDst.
  rewrite !itoa_digit by done.
  destruct (fmt_c_cases (Dst e1)) as [(Hn1 & ->) | (Hn1 & ->)],
           (fmt_c_cases (Dst e2)) as [(Hn2 & ->) | (Hn2 & ->)];
    cbn [String.append]; intros Heq; try discriminate.
  - injection Heq as Ht Hxe Hye.
    split; [done|]. apply Pair_eq; by apply digit_inj.
  - injection Heq as Hhi Hlo Hxe Hye.
    apply (f_equal N_of_ascii) in Hhi, Hlo.
    pose proof (N.mod_upper_bound (N_of_ascii (Dst e1)) 64).
    pose proof (N.mod_upper_bound (N_of_ascii (Dst e2)) 64).
    pose proof (N.Div0.div_lt_upper_bound (N_of_ascii (Dst e1)) 64 4).
    pose proof (N.Div0.div_lt_upper_bound (N_of_ascii (Dst e2)) 64 4).
    rewrite !N_ascii_embedding in Hhi, Hlo by lia.
    split; [|apply Pair_eq; by apply digit_inj].
    rewrite <- (ascii_N_embedding (Dst e1)), <- (ascii_N_embedding (Dst e2)).
    f_equal.
    rewrite (N.div_mod (N_of_ascii (Dst e1)) 64), (N.div_mod (N_of_ascii (Dst e2)) 64)
      by done.
    lia.
Qed.

Lemma UniqueDst_injective_small_witness :
  UniqueDst stopped = UniqueDst (mkEvent at_start SOUTH "X"%char (mkPair 3 2) false ())
  ∧ Dst stopped = "X"%char
  ∧ dstC stopped = mkPair 3 2.
Proof.
  assert (H : UniqueDst stopped
              = UniqueDst (mkEvent at_start SOUTH "X"%char (mkPair 3 2) false ()))
    by reflexivity.
  split; [exact H|].
  refine (UniqueDst_injective_small stopped
            (mkEvent at_start SOUTH "X"%char (mkPair 3 2) false ()) _ _ _ _ H);
    cbn; lia.
Defined.

(** X23.  The identifier is not unique once a coordinate has two digits: the
    two numbers are printed one after the other with nothing between them.
    For digits [a], [b] (not zero) and [c], the positions [(a, 10b+c)] and
    [(10a+b, c)] are different and have the same identifier when they hold
    the same tile; so entering the second right after the first is counted
    as a revisit. *)
Theorem UniqueDst_collides {A} (f1 f2 : FSM) (evt1 evt2 : string) (tile : ascii)
    (c1 c2 : bool) (args1 args2 : A) (a b c : Z) :
  1 <= a < 10 → 1 <= b < 10 → 0 <= c < 10 →
  mkPair a (10 * b + c) ≠ mkPair (10 * a + b) c
  ∧ UniqueDst (mkEvent f1 evt1 tile (mkPair a (10 * b + c)) c1 args1)
    = UniqueDst (mkEvent f2 evt2 tile (mkPair (10 * a + b) c) c2 args2)
  ∧ ∀ (sim : BenderSimulator),
      loopCnt (Remember evt2
                 (UniqueDst (mkEvent f2 evt2 tile (mkPair (10 * a + b) c) c2 args2))
                 (Remember evt1
                    (UniqueDst (mkEvent f1 evt1 tile (mkPair a (10 * b + c)) c1 args1))
                    sim))
      = int_add (loopCnt (Remember evt1
                    (UniqueDst (mkEvent f1 evt1 tile (mkPair a (10 * b + c)) c1 args1))
                    sim)) 1.
Proof.
  intros Ha Hb Hc.
  assert (Hid : UniqueDst (mkEvent f1 evt1 tile (mkPair a (10 * b + c)) c1 args1)
                = UniqueDst (mkEvent f2 evt2 tile (mkPair (10 * a + b) c) c2 args2)).
  { unfold UniqueDst. cbn [Dst dstC x y].
    rewrite !itoa_two_digits, !itoa_digit by lia.
    by destruct (fmt_c_cases tile) as [(_ & ->) | (_ & ->)]. }
  split_and!.
  - intros [= Hx Hy]. lia.
  - exact Hid.
  - intros sim. rewrite <- Hid. apply Remember_repeat, Remember_cache_self.
Qed.

Lemma UniqueDst_collides_witness :
  UniqueDst (mkEvent at_start SOUTH " "%char (mkPair 1 12) false ())
  = UniqueDst (mkEvent at_start EAST " "%char (mkPair 11 2) false ()).
Proof.
  refine (proj1 (proj2 (UniqueDst_collides at_start at_start SOUTH EAST " "%char
                          false false () () 1 1 2 _ _ _))); lia.
Defined.

(** * The threshold and the end of a run *)

Lemma calcNumStates_rows (s : string) (rest : list string) :
  len (s :: rest) <= 2 ^ 31 →
  Z.of_nat (String.length s) <= 2 ^ 31 →
  calcNumStates (s :: rest)
  = Returned ((len (s :: rest) - 2) * (Z.of_nat (String.length s) - 2)).
Proof.
  intros Hh Hw. unfold calcNumStates.
  change (slice_get (s :: rest) 0) with (Returned s). cbn [mbind outcome_bind].
  pose proof (len_nonneg (s :: rest)).
  pose proof (Nat2Z.is_nonneg (String.length s)).
  rewrite !int_sub_small by (unfold is_int, int_min, int_max; lia).
  rewrite int_wrap_id; [done|].
  unfold is_int, int_min, int_max. nia.
Qed.

Lemma NewFSM_dimensions (s : string) (rest : list string) :
  height (NewFSM (s :: rest)) = len (s :: rest)
  ∧ width (NewFSM (s :: rest)) = Z.of_nat (String.length s).
Proof.
  unfold height, width, NewFSM. rewrite scan_plan_states.
  cbn [app fmap list_fmap]. unfold len. cbn [length].
  by rewrite length_fmap, list_ascii_length.
Qed.

(** X24.  [calcNumStates] panics on the empty plan.  On a plan with at least
    one row, whose number of rows and first row length are at most [2^31],
    it returns the product of the height less two and the width less two of
    the machine [NewFSM] builds from that plan, without wrap-around; only the
    number of rows and the first row matter, not the tiles. *)
Theorem calcNumStates_dimensions (plan : list string) :
  calcNumStates [] = Panicked "index out of range"
  ∧ (plan ≠ [] →
     height (NewFSM plan) <= 2 ^ 31 →
     width (NewFSM plan) <= 2 ^ 31 →
     calcNumStates plan
     = Returned ((height (NewFSM plan) - 2) * (width (NewFSM plan) - 2)))
  ∧ (∀ s rest rest',
       length rest = length rest' →
       calcNumStates (s :: rest) = calcNumStates (s :: rest')).
Proof.
  split_and!.
  - reflexivity.
  - intros Hne Hh Hw. destruct plan as [|s rest]; [done|].
    destruct (NewFSM_dimensions s rest) as (Hhe & Hwe).
    rewrite Hhe, Hwe in *. by apply calcNumStates_rows.
  - intros s rest rest' Hlen. unfold calcNumStates.
    change (slice_get (s :: rest) 0) with (Returned s).
    change (slice_get (s :: rest') 0) with (Returned s).
    cbn [mbind outcome_bind]. unfold len. cbn [length]. by rewrite Hlen.
Qed.

Lemma calcNumStates_dimensions_witness :
  main_plan ≠ []
  ∧ height (NewFSM main_plan) <= 2 ^ 31
  ∧ width (NewFSM main_plan) <= 2 ^ 31
  ∧ calcNumStates main_plan = Returned 36
  ∧ calcNumStates corridor = Returned (-3).
Proof.
  assert (H1 : main_plan ≠ []) by discriminate.
  assert (H2 : height (NewFSM main_plan) <= 2 ^ 31) by (by vm_compute).
  assert (H3 : width (NewFSM main_plan) <= 2 ^ 31) by (by vm_compute).
  split; [exact H1|]. split; [exact H2|]. split; [exact H3|].
  split.
  - rewrite (proj1 (proj2 (calcNumStates_dimensions main_plan)) H1 H2 H3). reflexivity.
  - rewrite (proj1 (proj2 (calcNumStates_dimensions corridor))); [reflexivity | | |];
      by vm_compute.
Defined.

Lemma drive_stops (n : nat) (m : FSM) (bender : BenderSimulator) :
  Done bender = true ∨ Loop bender = true →
  drive n m bender = Returned (None, m, bender).
Proof.
  intros Hstop. destruct n as [|n]; [done|]. cbn [drive].
  by destruct Hstop as [-> | ->]; rewrite ?andb_false_r.
Qed.

(** X25.  A plan of one row is reported as a loop without a move.  For a
    plan of a single row of more than two (and at most [2^31]) bytes,
    [calcNumStates] returns a negative threshold; the simulator built with it
    is looped before anything is recorded, so the loop of [main] makes no
    transition on the machine of that plan, whatever tiles the row holds,
    and [ShowPath] is the single entry [LOOP].  In general a new simulator
    is looped exactly when its threshold is negative. *)
Theorem one_row_plan_loops (s : string) :
  2 < Z.of_nat (String.length s) <= 2 ^ 31 →
  (∀ n, Loop (NewBenderSimulator n) = bool_decide (n < 0))
  ∧ ∃ n, calcNumStates [s] = Returned n
         ∧ n < 0
         ∧ Loop (NewBenderSimulator n) = true
         ∧ ShowPath (NewBenderSimulator n) = [LOOP]
         ∧ ∀ k, drive k (NewFSM [s]) (NewBenderSimulator n)
                = Returned (None, NewFSM [s], NewBenderSimulator n).
Proof.
  intros Hs.
  assert (HL : ∀ n, Loop (NewBenderSimulator n) = bool_decide (n < 0)).
  { intros n. unfold Loop. cbn. repeat case_bool_decide; (done || lia). }
  split; [exact HL|].
  eexists. split.
  { apply calcNumStates_rows; [by vm_compute | lia]. }
  change (len [s]) with 1.
  assert (Hneg : (1 - 2) * (Z.of_nat (String.length s) - 2) < 0) by lia.
  assert (Hloop : Loop (NewBenderSimulator ((1 - 2) * (Z.of_nat (String.length s) - 2)))
                  = true).
  { rewrite HL. by apply bool_decide_eq_true_2. }
  split_and!.
  - exact Hneg.
  - exact Hloop.
  - unfold ShowPath. by rewrite Hloop.
  - intros k. apply drive_stops. by right.
Qed.

Lemma one_row_plan_loops_witness :
  2 < Z.of_nat (String.length "#@ $#") <= 2 ^ 31
  ∧ calcNumStates corridor = Returned (-3)
  ∧ drive 10 (NewFSM corridor) (NewBenderSimulator (-3))
    = Returned (None, NewFSM corridor, NewBenderSimulator (-3)).
Proof.
  assert (H : 2 < Z.of_nat (String.length "#@ $#") <= 2 ^ 31) by (by vm_compute).
  split; [exact H|].
  destruct (one_row_plan_loops "#@ $#" H) as (_ & n & Hn & _ & _ & _ & Hrun).
  assert (Hn3 : n = -3).
  { change (calcNumStates ["#@ $#"]) with (Returned (T:=Z) (-3)) in Hn. by injection Hn. }
  subst n. split; [reflexivity | exact (Hrun 10%nat)].
Defined.

(** X26.  Reaching the booth ends the run.  A transition of the policy onto
    an in-bounds tile ['$'] returns [nil], leaves the machine on that tile
    with the grid unchanged, appends the direction to the path and sets
    [Done]; from there the loop of [main] makes no further transition,
    whatever the number of transitions it is allowed. *)
Theorem Event_policy_reaches_booth (f : FSM) (evt : string) (b : BenderSimulator) :
  inBounds f (FSM.destination f evt) →
  tileAt f (FSM.destination f evt) = Some "$"%char →
  ∃ b',
    FSM.Event beforeCallback enterCallback f evt b
    = Returned (None, FSM.SetState (FSM.destination f evt) f, b')
    ∧ Done b' = true
    ∧ path b' = path b ++ [evt]
    ∧ ∀ n, drive n (FSM.SetState (FSM.destination f evt) f) b'
           = Returned (None, FSM.SetState (FSM.destination f evt) f, b').
Proof.
  intros Hin Htile.
  assert (Hbefore : beforeCallback (mkEvent f evt "$"%char (FSM.destination f evt) false b)
                    = Returned (mkEvent f evt "$"%char (FSM.destination f evt) false b)).
  { unfold beforeCallback. cbn [Dst]. by rewrite !bool_decide_eq_false_2 by done. }
  rewrite (Event_entered _ _ _ _ _ "$"%char _ Hin Htile Hbefore eq_refl).
  rewrite enterCallback_not_teleport by discriminate.
  event_simpl. eexists. split; [reflexivity|].
  change (tile_effect "$") with Reached.
  assert (Hdone : Done (Remember evt
                          (fmt_c "$" +:+ itoa (x (FSM.destination f evt))
                                     +:+ itoa (y (FSM.destination f evt)))
                          (Reached (if Hurts b then BackOnTrack b else b))) = true).
  { unfold Done. by rewrite (proj1 (Remember_frame _ _ _)). }
  split_and!.
  - exact Hdone.
  - rewrite Remember_path. by destruct (Hurts b).
  - intros n. apply drive_stops. by left.
Qed.

Lemma Event_policy_reaches_booth_witness :
  inBounds (FSM.SetState (mkPair 2 1) (NewFSM test_plan))
    (FSM.destination (FSM.SetState (mkPair 2 1) (NewFSM test_plan)) WEST)
  ∧ tileAt (FSM.SetState (mkPair 2 1) (NewFSM test_plan))
      (FSM.destination (FSM.SetState (mkPair 2 1) (NewFSM test_plan)) WEST)
    = Some "$"%char
  ∧ ∃ b', FSM.Event beforeCallback enterCallback
            (FSM.SetState (mkPair 2 1) (NewFSM test_plan)) WEST (NewBenderSimulator 6)
          = Returned (None, FSM.SetState (mkPair 1 1) (NewFSM test_plan), b')
          ∧ Done b' = true.
Proof.
  assert (H1 : inBounds (FSM.SetState (mkPair 2 1) (NewFSM test_plan))
                 (FSM.destination (FSM.SetState (mkPair 2 1) (NewFSM test_plan)) WEST))
    by (by vm_compute).
  assert (H2 : tileAt (FSM.SetState (mkPair 2 1) (NewFSM test_plan))
                 (FSM.destination (FSM.SetState (mkPair 2 1) (NewFSM test_plan)) WEST)
               = Some "$"%char) by reflexivity.
  split; [exact H1|]. split; [exact H2|].
  destruct (Event_policy_reaches_booth _ WEST (NewBenderSimulator 6) H1 H2)
    as (b' & Hev & Hdone & _).
  exists b'. split; [exact Hev | exact Hdone].
Defined.

(** * The simulator across a transition *)

(** X27.  A transition of the policy keeps the simulator steady, on any
    machine and for any event, whenever it returns; so after it [Direction]
    again returns one of the four directions, and the driver never hands the
    machine an event that is no direction. *)
Theorem Event_policy_steady (f f' : FSM) (evt : string) (b b' : BenderSimulator)
    (err : option string) :
  steady b →
  FSM.Event beforeCallback enterCallback f evt b = Returned (err, f', b') →
  steady b'
  ∧ length (priorities b') = 4%nat
  ∧ ∃ dir, Direction b' = Returned dir ∧ dir ∈ [SOUTH; NORTH; EAST; WEST].
Proof.
  intros Hb Hev.
  pose proof (Event_keeps_steady _ _ _ _ _ _ Hb Hev) as Hb'.
  split_and!.
  - exact Hb'.
  - pose proof (steady_len _ Hb') as Hlen. unfold len in Hlen. lia.
  - by apply Direction_returns.
Qed.

Lemma Event_policy_steady_witness :
  steady turned_over
  ∧ ∃ f' b',
      FSM.Event beforeCallback enterCallback at_start SOUTH turned_over
      = Returned (None, f', b')
      ∧ steady b'.
Proof.
  assert (H : steady turned_over).
  { unfold steady. cbn. split_and!; [done | lia | lia | apply list_elem_of_here]. }
  split; [exact H|].
  eexists. eexists. split; [by vm_compute|].
  refine (proj1 (Event_policy_steady at_start _ SOUTH turned_over _ None H _)).
  by vm_compute.
Defined.
